(** * tk_tools/widgets.py: a shallow embedding and its verified properties

    The module defines four "smart" widgets over tkinter (SmartOptionMenu,
    SmartSpinBox, SmartCheckbutton on top of SmartWidget) and the
    BinaryLabel / ByteLabel display widgets.  The embedding below follows
    the Python text method by method:

    - Python [int] is [Z]; [&], [|], [^], [~] are [Z.land], [Z.lor],
      [Z.lxor], [Z.lnot]; [<<] is [Z.shiftl] guarded by the interpreter's
      "negative shift count" check;
    - Python [str] is [list ascii]; [bin], [len], slicing [s[i:]],
      [str.zfill] and [+] are written out with the behaviour CPython gives
      them, sign handling and negative indices included;
    - a method is a computation over the object it mutates and the module
      logger, in a small state-and-exception monad: an exception leaves the
      state reached so far in place, as in Python. *)

From Stdlib Require Import ZArith List Ascii String Bool Lia.
Import ListNotations.
Open Scope Z_scope.

(** ** Python values, exceptions, strings *)

Definition pystr := list ascii.

(** A literal, written as a Rocq string. *)
Definition lit (s : string) : pystr := list_ascii_of_string s.

Inductive pyval :=
| PyNone
| PyInt (z : Z)
| PyFloat (q : Z * positive)
| PyBool (b : bool)
| PyStr (s : pystr).

Inductive exn :=
| ValueError (msg : pystr)
| TypeError (msg : pystr)
| IndexError (msg : pystr)
| TclError (msg : pystr)
| OtherError (name msg : pystr).

Inductive result (A : Type) :=
| Ok (a : A)
| Raise (e : exn).
Arguments Ok {A} a.
Arguments Raise {A} e.

Definition raises {A} (r : result A) : bool :=
  match r with Ok _ => false | Raise _ => true end.

(** [len(s)] *)
Definition len (s : pystr) : Z := Z.of_nat (List.length s).

(** [s[start:]]: a negative start counts from the end; the start is then
    clipped to [0 .. len(s)]. *)
Definition slice_from (start : Z) (s : pystr) : pystr :=
  let i := if start <? 0 then Z.max 0 (start + len s) else Z.min start (len s) in
  skipn (Z.to_nat i) s.

Definition is_sign (c : ascii) : bool :=
  (Ascii.eqb c "+" || Ascii.eqb c "-")%char.

(** [s.zfill(width)]: unchanged when already wide enough; otherwise zeros
    are put on the left, after a leading sign character when there is one. *)
Definition zfill (width : Z) (s : pystr) : pystr :=
  if len s >=? width then s
  else
    let fill := repeat "0"%char (Z.to_nat (width - len s)) in
    match s with
    | c :: rest => if is_sign c then c :: fill ++ rest else fill ++ s
    | [] => fill
    end.

(** The digits of a positive number, most significant first. *)
Fixpoint bin_digits (p : positive) : pystr :=
  match p with
  | xH => ["1"%char]
  | xO q => bin_digits q ++ ["0"%char]
  | xI q => bin_digits q ++ ["1"%char]
  end.

(** [bin(v)]: ["0b..."], with a leading ["-"] for a negative number. *)
Definition bin (v : Z) : pystr :=
  match v with
  | Z0 => lit "0b0"
  | Zpos p => lit "0b" ++ bin_digits p
  | Zneg p => lit "-0b" ++ bin_digits p
  end.

(** [a << b]: the interpreter rejects a negative count.  Integers are
    unbounded here; a count so large that the result does not fit in
    memory is outside the model. *)
Definition py_lshift (a b : Z) : result Z :=
  if b <? 0 then Raise (ValueError (lit "negative shift count"))
  else Ok (Z.shiftl a b).

(** ** BinaryLabel and ByteLabel *)

(** The two classes; [ByteLabel] is declared with an empty body, so an
    object differs from a [BinaryLabel] only in its dynamic type. *)
Inductive label_class := BinaryLabel_cls | ByteLabel_cls.

(** [type(self).__name__] *)
Definition __name__ (c : label_class) : pystr :=
  match c with
  | BinaryLabel_cls => lit "BinaryLabel"
  | ByteLabel_cls => lit "ByteLabel"
  end.

(** The attributes [__init__] sets, and the label's ["text"] option. *)
Record BinaryLabel := mkLabel {
  cls : label_class;
  _value : Z;
  _prefix : pystr;
  _bit_width : Z;
  _truncation_warning : bool;
  text : pystr
}.

(** The object under operation together with the records the module
    [logger] has received, oldest first. *)
Record world := mkWorld {
  self : BinaryLabel;
  log : list pystr
}.

(** Computations: state passing with exceptions. *)
Definition M (A : Type) := world -> result A * world.

Definition ret {A} (a : A) : M A := fun w => (Ok a, w).

Definition bind {A B} (m : M A) (f : A -> M B) : M B :=
  fun w => match m w with
           | (Ok a, w') => f a w'
           | (Raise e, w') => (Raise e, w')
           end.

Definition lift {A} (r : result A) : M A := fun w => (r, w).

Definition get_self : M BinaryLabel := fun w => (Ok (self w), w).

Definition put_self (s : BinaryLabel) : M unit :=
  fun w => (Ok tt, mkWorld s (log w)).

Definition logger_warning (msg : pystr) : M unit :=
  fun w => (Ok tt, mkWorld (self w) (log w ++ [msg])).

Declare Scope py_scope.
Delimit Scope py_scope with py.
Notation "x <- m ;; k" := (bind m (fun x => k))
  (at level 61, m at next level, right associativity) : py_scope.
Notation "m ;; k" := (bind m (fun _ => k))
  (at level 61, right associativity) : py_scope.
Open Scope py_scope.

Definition set_value (v : Z) (s : BinaryLabel) : BinaryLabel :=
  mkLabel (cls s) v (_prefix s) (_bit_width s) (_truncation_warning s) (text s).

Definition set_text (t : pystr) (s : BinaryLabel) : BinaryLabel :=
  mkLabel (cls s) (_value s) (_prefix s) (_bit_width s) (_truncation_warning s) t.

Definition truncation_message : pystr :=
  lit ": Displayed value is truncated on left side due to insufficient bit width.".

(** [len(str(bin(self._value)[2:])) > self._bit_width] *)
Definition too_wide (s : BinaryLabel) : bool :=
  len (slice_from 2 (bin (_value s))) >? _bit_width s.

Definition _check_width : M pyval :=
  s <- get_self ;;
  if _truncation_warning s && too_wide s
  then logger_warning (__name__ (cls s) ++ truncation_message) ;; ret PyNone
  else ret PyNone.

(** [self._prefix + str(bin(self._value))[2:].zfill(w)[-w:]] *)
Definition rendering (s : BinaryLabel) : pystr :=
  _prefix s ++
  slice_from (- _bit_width s)
    (zfill (_bit_width s) (slice_from 2 (bin (_value s)))).

Definition _text_update : M pyval :=
  s <- get_self ;;
  put_self (set_text (rendering s) s) ;;
  ret PyNone.

(** [BinaryLabel.__init__] (inherited unchanged by [ByteLabel]); the
    native label starts with an empty text. *)
Definition __init__ (c : label_class) (value : Z) (prefix : pystr)
    (bit_width : Z) (truncation_warning : bool) (lg : list pystr)
  : result pyval * world :=
  (_check_width ;; _text_update)
    (mkWorld (mkLabel c value prefix bit_width truncation_warning []) lg).

Definition get : M pyval :=
  s <- get_self ;; ret (PyInt (_value s)).

Definition set (value : Z) : M pyval :=
  s <- get_self ;;
  put_self (set_value value s) ;;
  _check_width ;;
  _text_update.

Definition get_bit (position : Z) : M pyval :=
  s <- get_self ;;
  m <- lift (py_lshift 1 position) ;;
  ret (PyInt (Z.land (_value s) m)).

Definition toggle_bit (position : Z) : M pyval :=
  s <- get_self ;;
  m <- lift (py_lshift 1 position) ;;
  put_self (set_value (Z.lxor (_value s) m) s) ;;
  _text_update.

Definition set_bit (position : Z) : M pyval :=
  s <- get_self ;;
  m <- lift (py_lshift 1 position) ;;
  put_self (set_value (Z.lor (_value s) m) s) ;;
  _text_update.

Definition clear_bit (position : Z) : M pyval :=
  s <- get_self ;;
  m <- lift (py_lshift 1 position) ;;
  put_self (set_value (Z.land (_value s) (Z.lnot m)) s) ;;
  _text_update.

(** The wrappers.  [get_msb] and [get_lsb] call [get_bit] and drop what it
    returns: their bodies have no [return]. *)
Definition get_msb : M pyval :=
  s <- get_self ;; get_bit (_bit_width s - 1) ;; ret PyNone.

Definition toggle_msb : M pyval :=
  s <- get_self ;; toggle_bit (_bit_width s - 1) ;; ret PyNone.

Definition get_lsb : M pyval :=
  get_bit 0 ;; ret PyNone.

Definition set_msb : M pyval :=
  s <- get_self ;; set_bit (_bit_width s - 1) ;; ret PyNone.

Definition clear_msb : M pyval :=
  s <- get_self ;; clear_bit (_bit_width s - 1) ;; ret PyNone.

Definition toggle_lsb : M pyval :=
  toggle_bit 0 ;; ret PyNone.

Definition set_lsb : M pyval :=
  set_bit 0 ;; ret PyNone.

Definition clear_lsb : M pyval :=
  clear_bit 0 ;; ret PyNone.




(** ** Method calls on a label *)

(** The public methods, as a caller names them. *)
Inductive call :=
| Call_get
| Call_set (value : Z)
| Call_get_bit (position : Z)
| Call_toggle_bit (position : Z)
| Call_set_bit (position : Z)
| Call_clear_bit (position : Z)
| Call_get_msb
| Call_toggle_msb
| Call_get_lsb
| Call_set_msb
| Call_clear_msb
| Call_toggle_lsb
| Call_set_lsb
| Call_clear_lsb.

(** Method lookup: both classes resolve every name to the definitions of
    [BinaryLabel], [ByteLabel] overriding none. *)
Definition invoke (c : call) : M pyval :=
  match c with
  | Call_get => get
  | Call_set v => set v
  | Call_get_bit p => get_bit p
  | Call_toggle_bit p => toggle_bit p
  | Call_set_bit p => set_bit p
  | Call_clear_bit p => clear_bit p
  | Call_get_msb => get_msb
  | Call_toggle_msb => toggle_msb
  | Call_get_lsb => get_lsb
  | Call_set_msb => set_msb
  | Call_clear_msb => clear_msb
  | Call_toggle_lsb => toggle_lsb
  | Call_set_lsb => set_lsb
  | Call_clear_lsb => clear_lsb
  end.

(** A caller that issues the calls one after the other and keeps going
    after an exception; the outcomes are collected in order. *)
Fixpoint run (cs : list call) (w : world) : list (result pyval) * world :=
  match cs with
  | [] => ([], w)
  | c :: cs' =>
      let (r, w1) := invoke c w in
      let (rs, w2) := run cs' w1 in
      (r :: rs, w2)
  end.

(** Whether a call is one of the three mutating bit operations or of
    their wrappers. *)
Definition is_bit_write (c : call) : bool :=
  match c with
  | Call_toggle_bit _ | Call_set_bit _ | Call_clear_bit _
  | Call_toggle_msb | Call_set_msb | Call_clear_msb
  | Call_toggle_lsb | Call_set_lsb | Call_clear_lsb => true
  | _ => false
  end.

(** ** The rendering and the digit count, as the specification words them *)

Definition bit_char (n : Z) : ascii := if Z.odd n then "1"%char else "0"%char.

(** Binary digits of a non-negative number by repeated halving, the
    last digit produced being the most significant. *)
Fixpoint halving (fuel : nat) (n : Z) (acc : pystr) : pystr :=
  match fuel with
  | O => acc
  | S f =>
      if n <? 2 then bit_char n :: acc
      else halving f (n / 2) (bit_char n :: acc)
  end.

Definition binary_digit_string (n : Z) : pystr :=
  halving (S (Z.to_nat (Z.log2 n))) n [].

(** Zeros on the left up to at least [w] characters. *)
Definition left_pad (w : nat) (s : pystr) : pystr :=
  repeat "0"%char (w - List.length s) ++ s.

(** The rightmost [w] characters. *)
Definition rightmost (w : nat) (s : pystr) : pystr :=
  skipn (List.length s - w) s.

Definition spec_rendering (prefix : pystr) (value bit_width : Z) : pystr :=
  prefix ++
  rightmost (Z.to_nat bit_width)
    (left_pad (Z.to_nat bit_width) (binary_digit_string value)).

(** Number of binary digits of the value's positive representation. *)
Definition bin_length (value : Z) : Z :=
  len (binary_digit_string (Z.abs value)).

(** ** SmartWidget and its subclasses *)

Fixpoint str_eqb (a b : pystr) : bool :=
  match a, b with
  | [], [] => true
  | x :: a', y :: b' => Ascii.eqb x y && str_eqb a' b'
  | _, _ => false
  end.

(** [v == s] for a string literal [s]: only an equal string compares equal. *)
Definition py_eq_str (v : pyval) (s : pystr) : bool :=
  match v with
  | PyStr t => str_eqb t s
  | _ => false
  end.

(** Truth value of an optional string argument: [None] and the empty
    string are false. *)
Definition truthy (o : option pystr) : bool :=
  match o with
  | Some (_ :: _) => true
  | _ => false
  end.

Inductive tkvar_class := StringVar | IntVar | DoubleVar | BooleanVar.

Section Callbacks.

(** What the application's callbacks read and write. *)
Variable U : Type.

(** A Python callable: which numbers of positional arguments its
    signature binds, and what its body does once they are bound.  The
    body sees the arguments and the widget's current value, acts on the
    application state, and returns or raises. *)
Record callable := mkCallable {
  accepts : nat -> bool;
  body : list pyval -> pyval -> U -> result pyval * U
}.

(** The widget's variable value, the invocations attempted so far (each
    with its argument list, oldest first) and the application state. *)
Record env := mkEnv {
  var_value : pyval;
  calls : list (list pyval);
  user : U
}.

Definition arity_mismatch : exn :=
  TypeError (lit "wrong number of positional arguments").

(** Calling [f] on [args]: binding the arguments fails with [TypeError]
    before the body is entered; otherwise the body runs. *)
Definition call_function (f : callable) (args : list pyval) (e : env)
  : result pyval * env :=
  let attempted := calls e ++ [args] in
  if accepts f (List.length args) then
    let (r, u) := body f args (var_value e) (user e) in
    (r, mkEnv (var_value e) attempted u)
  else (Raise arity_mismatch, mkEnv (var_value e) attempted (user e)).

(** [SmartWidget.get]: [self._var.get()] *)
Definition SmartWidget_get (e : env) : pyval := var_value e.

(** The closure built by [add_callback] and by the three constructors,
    [try: callback()  except TypeError: callback(self.get())], on a widget
    whose class resolves [get] to [self_get].  The closure has no
    [return]: it yields [None] when the call it made returns, whatever
    that call returned, and lets through what that call raises.  Reading
    the value is the toolkit's: its failures are outside the model. *)
Definition internal_callback_on (self_get : env -> pyval)
    (callback : callable) (args : list pyval) (e : env)
  : result pyval * env :=
  match call_function callback [] e with
  | (Ok _, e1) => (Ok PyNone, e1)
  | (Raise (TypeError _), e1) =>
      match call_function callback [self_get e1] e1 with
      | (Ok _, e2) => (Ok PyNone, e2)
      | (Raise x, e2) => (Raise x, e2)
      end
  | (Raise x, e1) => (Raise x, e1)
  end.

(** The closure on a widget that inherits [SmartWidget.get]: a
    [SmartOptionMenu], a [SmartCheckbutton]. *)
Definition internal_callback (callback : callable) (args : list pyval)
    (e : env) : result pyval * env :=
  internal_callback_on SmartWidget_get callback args e.

Definition trace_fn := list pyval -> env -> result pyval * env.

(** A smart widget: the class of its variable and the write traces
    registered on it. *)
Record SmartWidget := mkWidget {
  _var : tkvar_class;
  traces : list trace_fn
}.

(** [self._var.trace('w', internal_callback)], on a widget whose class
    resolves [get] to [self_get]: [add_callback] is inherited by every
    smart widget and its closure calls [self.get()] when it fires. *)
Definition add_callback_on (self_get : env -> pyval) (callback : callable)
    (w : SmartWidget) : SmartWidget :=
  mkWidget (_var w) (traces w ++ [internal_callback_on self_get callback]).

(** [add_callback] on a widget that inherits [SmartWidget.get]. *)
Definition add_callback (callback : callable) (w : SmartWidget) : SmartWidget :=
  mkWidget (_var w) (traces w ++ [internal_callback callback]).

Definition trace_if_given_on (self_get : env -> pyval)
    (callback : option callable) (w : SmartWidget) : SmartWidget :=
  match callback with
  | Some cb => add_callback_on self_get cb w
  | None => w
  end.

Definition trace_if_given (callback : option callable) (w : SmartWidget)
  : SmartWidget :=
  match callback with
  | Some cb => add_callback cb w
  | None => w
  end.

(** [SmartOptionMenu.__init__]: the result is the widget and the value
    its [StringVar] holds.  [tk.OptionMenu], called with the options
    unpacked, needs at least one to bind its [value] parameter. *)
Definition SmartOptionMenu_init (options : list pystr)
    (initial_value : option pystr) (callback : option callable)
  : result (SmartWidget * pystr) :=
  let first :=
    match options with
    | o :: _ => Ok o
    | [] => Raise (IndexError (lit "list index out of range"))
    end in
  let chosen :=
    if truthy initial_value
    then match initial_value with Some s => Ok s | None => first end
    else first in
  match chosen with
  | Raise e => Raise e
  | Ok v =>
      match options with
      | [] => Raise (TypeError (lit "missing 1 required positional argument: 'value'"))
      | _ :: _ => Ok (trace_if_given callback (mkWidget StringVar []), v)
      end
  end.

(** Outcome of the call [super().__init__] makes to the native
    [tk.Spinbox] constructor with the forwarded options: [None] when it
    returns, the exception it raises otherwise, of whatever class (a
    keyword that collides with a parameter, a malformed option, an error
    from Tcl). *)
Variable tk_Spinbox : list (pystr * pyval) -> option exn.

(** [tk.Spinbox.get], the entry's string: [SmartSpinBox] lists
    [tk.Spinbox] before [SmartWidget] among its bases, so that is what
    [self.get()] calls on a spin box. *)
Variable tk_Spinbox_get : env -> pyval.

(** The double-quote character. *)
Definition dq : pystr := [ascii_of_nat 34].

Definition entry_type_message : pystr :=
  lit "Entry type must be " ++ dq ++ lit "str" ++ dq ++ lit ", "
  ++ dq ++ lit "int" ++ dq ++ lit ", or " ++ dq ++ lit "float" ++ dq.

(** [SmartSpinBox.__init__] *)
Definition SmartSpinBox_init (entry_type : pyval)
    (callback : option callable) (options : list (pystr * pyval))
  : result SmartWidget :=
  let var :=
    if py_eq_str entry_type (lit "str") then Ok StringVar
    else if py_eq_str entry_type (lit "int") then Ok IntVar
    else if py_eq_str entry_type (lit "float") then Ok DoubleVar
    else Raise (ValueError entry_type_message) in
  match var with
  | Raise e => Raise e
  | Ok v =>
      match tk_Spinbox options with
      | Some x => Raise x
      | None => Ok (trace_if_given_on tk_Spinbox_get callback (mkWidget v []))
      end
  end.

End Callbacks.

Arguments accepts {U} _ _.
Arguments body {U} _ _ _ _.
Arguments var_value {U} _.
Arguments calls {U} _.
Arguments user {U} _.
Arguments traces {U} _.
Arguments _var {U} _.
Arguments mkCallable {U} _ _.
Arguments mkEnv {U} _ _ _.
Arguments mkWidget {U} _ _.
Arguments call_function {U} _ _ _.
Arguments internal_callback_on {U} _ _ _ _.
Arguments internal_callback {U} _ _ _.
Arguments add_callback_on {U} _ _ _.
Arguments add_callback {U} _ _.
Arguments trace_if_given_on {U} _ _ _.
Arguments SmartWidget_get {U} _.
Arguments SmartOptionMenu_init {U} _ _ _.
Arguments SmartSpinBox_init {U} _ _ _ _ _.

(** ** Notions used in the statements *)

(** The label after its value has been replaced and its text redrawn. *)
Definition redrawn (v : Z) (s : BinaryLabel) : BinaryLabel :=
  set_text (rendering (set_value v s)) (set_value v s).

(** The value a call stores, when it stores one. *)
Definition bit_write (f : Z -> Z -> Z) (position : Z) (s : BinaryLabel)
  : option Z :=
  if position <? 0 then None else Some (f (_value s) (Z.shiftl 1 position)).

Definition stored_value (c : call) (s : BinaryLabel) : option Z :=
  match c with
  | Call_set v => Some v
  | Call_toggle_bit p => bit_write Z.lxor p s
  | Call_set_bit p => bit_write Z.lor p s
  | Call_clear_bit p => bit_write (fun v m => Z.land v (Z.lnot m)) p s
  | Call_toggle_msb => bit_write Z.lxor (_bit_width s - 1) s
  | Call_set_msb => bit_write Z.lor (_bit_width s - 1) s
  | Call_clear_msb => bit_write (fun v m => Z.land v (Z.lnot m)) (_bit_width s - 1) s
  | Call_toggle_lsb => bit_write Z.lxor 0 s
  | Call_set_lsb => bit_write Z.lor 0 s
  | Call_clear_lsb => bit_write (fun v m => Z.land v (Z.lnot m)) 0 s
  | Call_get | Call_get_bit _ | Call_get_msb | Call_get_lsb => None
  end.

(** The warning a label of class [c] logs. *)
Definition warning_of (c : label_class) : pystr :=
  __name__ c ++ truncation_message.

(** The records one check of the width adds to the log. *)
Definition warnings_for (s : BinaryLabel) : list pystr :=
  if _truncation_warning s && too_wide s then [warning_of (cls s)] else [].

Definition emitted (c : call) (s : BinaryLabel) : list pystr :=
  match c with
  | Call_set v => warnings_for (set_value v s)
  | _ => []
  end.

(** The arguments of a call are in the domain the specification covers:
    a value that is set is not negative. *)
Definition sets_nonneg (c : call) : Prop :=
  match c with
  | Call_set v => 0 <= v
  | _ => True
  end.

(** The same label under another class. *)
Definition with_class (c : label_class) (s : BinaryLabel) : BinaryLabel :=
  mkLabel c (_value s) (_prefix s) (_bit_width s) (_truncation_warning s) (text s).

(** What the shift raises on a negative count. *)
Definition negative_shift_count : exn :=
  ValueError (lit "negative shift count").

(** The condition of the width check, in terms of the digit count: the
    compared string keeps one more character for a negative value. *)
Definition warns (truncation_warning : bool) (value bit_width : Z) : bool :=
  truncation_warning &&
  ((if value <? 0 then bin_length value + 1 else bin_length value) >? bit_width).

(** The text on display is the one [_text_update] draws from the
    attributes. *)
Definition drawn (s : BinaryLabel) : Prop := text s = rendering s.

Definition is_TypeError {A} (r : result A) : bool :=
  match r with
  | Raise (TypeError _) => true
  | _ => false
  end.

(** A callback declared without parameters whose body raises [TypeError]
    on its own, for instance by adding a number to a string. *)
Definition failing_inside : callable unit :=
  mkCallable (fun n => Nat.eqb n 0)
    (fun _ _ u => (Raise (TypeError (lit "unsupported operand type(s)")), u)).

(** ** Further notions used in the statements *)

(** The character [i] places from the right end of a text, ["0"] when
    the text is shorter. *)
Definition char_from_right (i : Z) (t : pystr) : ascii :=
  nth (Z.to_nat i) (rev t) "0"%char.

(** The number a text of binary digits denotes, as [int(t, 2)] reads it. *)
Definition binary_value (t : pystr) : Z :=
  fold_left (fun acc c => 2 * acc + (if Ascii.eqb c "1" then 1 else 0)) t 0.

(** The three methods that write one bit. *)
Inductive bit_operation := Toggle_op | Set_op | Clear_op.

Definition bit_method (o : bit_operation) : Z -> M pyval :=
  match o with
  | Toggle_op => toggle_bit
  | Set_op => set_bit
  | Clear_op => clear_bit
  end.

(** The bit a write leaves at its position, given the bit found there. *)
Definition written_bit (o : bit_operation) (old : bool) : bool :=
  match o with
  | Toggle_op => negb old
  | Set_op => true
  | Clear_op => false
  end.

(** The value a write at position [p] computes from the value [v]. *)
Definition bit_result (o : bit_operation) (v p : Z) : Z :=
  match o with
  | Toggle_op => Z.lxor v (Z.shiftl 1 p)
  | Set_op => Z.lor v (Z.shiftl 1 p)
  | Clear_op => Z.land v (Z.lnot (Z.shiftl 1 p))
  end.

(** The position a call shifts by, when it shifts. *)
Definition shifted_position (c : call) (s : BinaryLabel) : option Z :=
  match c with
  | Call_get_bit p | Call_toggle_bit p | Call_set_bit p | Call_clear_bit p =>
      Some p
  | Call_get_msb | Call_toggle_msb | Call_set_msb | Call_clear_msb =>
      Some (_bit_width s - 1)
  | Call_get_lsb | Call_toggle_lsb | Call_set_lsb | Call_clear_lsb => Some 0
  | Call_get | Call_set _ => None
  end.

Definition shifts_negative (c : call) (s : BinaryLabel) : bool :=
  match shifted_position c s with
  | Some p => p <? 0
  | None => false
  end.

(** The arguments of a call respect the width [w]: a value that is set
    fits in [w] bits and a position lies in [0 .. w-1]. *)
Definition within_width (w : Z) (c : call) : Prop :=
  match c with
  | Call_set v => 0 <= v < 2 ^ w
  | Call_get_bit p | Call_toggle_bit p | Call_set_bit p | Call_clear_bit p =>
      0 <= p < w
  | _ => True
  end.

(** The character that shows a bit. *)
Definition bitc (b : bool) : ascii := if b then "1"%char else "0"%char.

(** What a function without [return] hands back from the outcome of
    the last call it made: [None] when that call returned, the exception
    when it raised. *)
Definition returns_None (r : result pyval) : result pyval :=
  match r with
  | Ok _ => Ok PyNone
  | Raise x => Raise x
  end.

(** Two callbacks of the documented shapes, acting on the list of what
    they have recorded and returning [True]: one takes the new value, the
    other takes nothing and reads the widget. *)
Definition record_value : callable (list pyval) :=
  mkCallable (fun n => Nat.eqb n 1)
    (fun args _ out => (Ok (PyBool true), out ++ args)).

Definition record_current : callable (list pyval) :=
  mkCallable (fun n => Nat.eqb n 0)
    (fun _ v out => (Ok (PyBool true), out ++ [v])).

(** * Properties *)

(** ** Equations of the methods *)

Ltac step_methods :=
  unfold invoke, get_msb, toggle_msb, get_lsb, set_msb, clear_msb,
    toggle_lsb, set_lsb, clear_lsb;
  unfold get, set, get_bit, toggle_bit, set_bit, clear_bit,
    _check_width, _text_update, bind, ret, lift, get_self,
    put_self, logger_warning, py_lshift; cbn [self log fst snd].

Lemma invoke_self (c : call) (w : world) :
  self (snd (invoke c w)) =
  match stored_value c (self w) with
  | Some v => redrawn v (self w)
  | None => self w
  end.
Proof.
  destruct w as [s lg]; destruct c; step_methods;
    unfold stored_value, bit_write; cbn [self log fst snd];
    try reflexivity;
    try (destruct (_ <? 0); reflexivity).
  unfold redrawn; destruct (_ && _); reflexivity.
Qed.

Lemma invoke_log (c : call) (w : world) :
  log (snd (invoke c w)) = log w ++ emitted c (self w).
Proof.
  destruct w as [s lg]; destruct c; step_methods;
    unfold emitted, warnings_for; cbn [self log fst snd];
    try (symmetry; apply app_nil_r);
    try (destruct (_ <? 0); cbn; symmetry; apply app_nil_r).
  destruct (_ && _); cbn; [reflexivity | symmetry; apply app_nil_r].
Qed.

Lemma init_self c value prefix bit_width tw lg :
  self (snd (__init__ c value prefix bit_width tw lg)) =
  redrawn value (mkLabel c value prefix bit_width tw []).
Proof.
  unfold __init__; step_methods. destruct (_ && _); reflexivity.
Qed.

Lemma init_log c value prefix bit_width tw lg :
  log (snd (__init__ c value prefix bit_width tw lg)) =
  lg ++ warnings_for (mkLabel c value prefix bit_width tw []).
Proof.
  unfold __init__, warnings_for; step_methods.
  destruct (_ && _); cbn; [reflexivity | symmetry; apply app_nil_r].
Qed.

Lemma init_returns c value prefix bit_width tw lg :
  fst (__init__ c value prefix bit_width tw lg) = Ok PyNone.
Proof.
  unfold __init__; step_methods. destruct (_ && _); reflexivity.
Qed.

(** ** The digits [bin] prints are the digits of repeated halving *)

Lemma size_to_nat (p : positive) : Pos.to_nat (Pos.size p) = Pos.size_nat p.
Proof.
  induction p as [p IH | p IH |]; cbn [Pos.size Pos.size_nat];
    rewrite ?Pos2Nat.inj_succ, ?IH; reflexivity.
Qed.

Lemma halving_fuel (p : positive) :
  S (Z.to_nat (Z.log2 (Zpos p))) = Pos.size_nat p.
Proof.
  destruct p; cbn [Z.log2 Z.to_nat Pos.size_nat];
    rewrite ?size_to_nat; reflexivity.
Qed.

Lemma halving_digits (p : positive) :
  forall fuel acc, (Pos.size_nat p <= fuel)%nat ->
    halving fuel (Zpos p) acc = bin_digits p ++ acc.
Proof.
  induction p as [p IH | p IH |]; intros [| fuel] acc Hfuel;
    cbn [Pos.size_nat] in Hfuel; try lia; cbn [halving bin_digits].
  - replace (Zpos p~1 <? 2) with false by (symmetry; apply Z.ltb_ge; lia).
    replace (Zpos p~1 / 2) with (Zpos p)
      by (apply Z.div_unique with (r := 1); lia).
    rewrite IH by lia. rewrite <- app_assoc. reflexivity.
  - replace (Zpos p~0 <? 2) with false by (symmetry; apply Z.ltb_ge; lia).
    replace (Zpos p~0 / 2) with (Zpos p)
      by (apply Z.div_unique with (r := 0); lia).
    rewrite IH by lia. rewrite <- app_assoc. reflexivity.
  - reflexivity.
Qed.

Lemma binary_digit_string_pos (p : positive) :
  binary_digit_string (Zpos p) = bin_digits p.
Proof.
  unfold binary_digit_string. rewrite halving_fuel.
  rewrite halving_digits by lia. apply app_nil_r.
Qed.

Lemma bin_digits_head (p : positive) :
  exists rest, bin_digits p = "1"%char :: rest.
Proof.
  induction p as [p [r IH] | p [r IH] |]; cbn [bin_digits];
    rewrite ?IH; eexists; reflexivity.
Qed.

Lemma binary_digit_string_head (v : Z) :
  0 <= v -> exists c rest,
    binary_digit_string v = c :: rest /\ is_sign c = false.
Proof.
  destruct v as [| p | p]; intros Hv; try lia.
  - exists "0"%char, []. split; reflexivity.
  - destruct (bin_digits_head p) as [r Hr].
    exists "1"%char, r. rewrite binary_digit_string_pos. split; [exact Hr | reflexivity].
Qed.

Lemma bin_digits_length (p : positive) :
  List.length (bin_digits p) = Pos.size_nat p.
Proof.
  induction p as [p IH | p IH |]; cbn [bin_digits Pos.size_nat];
    rewrite ?length_app, ?IH; cbn; lia.
Qed.

(** ** Slices and padding *)

Lemma slice_from_2 (a b : ascii) (rest : pystr) :
  slice_from 2 (a :: b :: rest) = rest.
Proof.
  unfold slice_from, len. cbn [List.length].
  replace (2 <? 0) with false by reflexivity.
  rewrite Z.min_l by lia. reflexivity.
Qed.

Lemma bin_nonneg (v : Z) :
  0 <= v -> slice_from 2 (bin v) = binary_digit_string v.
Proof.
  destruct v as [| p | p]; intros Hv; try lia.
  - reflexivity.
  - rewrite binary_digit_string_pos. apply slice_from_2.
  Qed.

Lemma bin_neg (p : positive) :
  slice_from 2 (bin (Zneg p)) = "b"%char :: binary_digit_string (Zpos p).
Proof.
  rewrite binary_digit_string_pos. apply slice_from_2.
Qed.

Lemma zfill_unsigned (w : Z) (c : ascii) (rest : pystr) :
  is_sign c = false ->
  zfill w (c :: rest) = left_pad (Z.to_nat w) (c :: rest).
Proof.
  intros Hc. unfold zfill, left_pad, len. rewrite Hc.
  destruct (Z.geb_spec (Z.of_nat (List.length (c :: rest))) w) as [Hge | Hlt].
  - replace (Z.to_nat w - List.length (c :: rest))%nat with 0%nat by lia.
    reflexivity.
  - f_equal. f_equal. lia.
Qed.

Lemma slice_from_rightmost (w : Z) (s : pystr) :
  1 <= w -> slice_from (- w) s = rightmost (Z.to_nat w) s.
Proof.
  intros Hw. unfold slice_from, rightmost, len.
  replace (- w <? 0) with true by (symmetry; apply Z.ltb_lt; lia).
  f_equal. lia.
Qed.

(** On the specified domain the text the code draws is the text the
    specification describes. *)
Lemma rendering_spec (s : BinaryLabel) :
  0 <= _value s -> 1 <= _bit_width s ->
  rendering s = spec_rendering (_prefix s) (_value s) (_bit_width s).
Proof.
  intros Hv Hw. unfold rendering, spec_rendering.
  rewrite (bin_nonneg _ Hv).
  destruct (binary_digit_string_head _ Hv) as (c & rest & -> & Hc).
  rewrite (zfill_unsigned _ _ _ Hc), (slice_from_rightmost _ _ Hw).
  reflexivity.
Qed.

(** The length the width check compares: the digit count, plus one for
    the ["b"] that the slice leaves in front of a negative number. *)
Lemma checked_length (v : Z) :
  len (slice_from 2 (bin v)) = if v <? 0 then bin_length v + 1 else bin_length v.
Proof.
  unfold bin_length. destruct v as [| p | p].
  - reflexivity.
  - cbn [Z.ltb Z.compare Z.abs]. rewrite bin_nonneg by lia. reflexivity.
  - cbn [Z.ltb Z.compare Z.abs]. rewrite bin_neg. unfold len.
    cbn [List.length]. lia.
Qed.

Lemma bin_length_log2 (v : Z) :
  v <> 0 -> bin_length v = Z.log2 (Z.abs v) + 1.
Proof.
  intros Hv. unfold bin_length, len.
  destruct v as [| p | p]; try lia; cbn [Z.abs];
    rewrite binary_digit_string_pos, bin_digits_length, <- halving_fuel;
    pose proof (Z.log2_nonneg (Zpos p)); lia.
Qed.

(** ** What the methods preserve *)

Lemma redrawn_drawn (v : Z) (s : BinaryLabel) : drawn (redrawn v s).
Proof. reflexivity. Qed.

Lemma invoke_drawn (c : call) (w : world) :
  drawn (self w) -> drawn (self (snd (invoke c w))).
Proof.
  intros Hd. rewrite invoke_self.
  destruct (stored_value c (self w)); [apply redrawn_drawn | exact Hd].
Qed.

Lemma invoke_frame (c : call) (w : world) :
  let s' := self (snd (invoke c w)) in
  cls s' = cls (self w) /\ _prefix s' = _prefix (self w) /\
  _bit_width s' = _bit_width (self w) /\
  _truncation_warning s' = _truncation_warning (self w).
Proof.
  cbv zeta. rewrite invoke_self.
  destruct (stored_value c (self w)); repeat split; reflexivity.
Qed.

Lemma run_cons (c : call) (cs : list call) (w : world) :
  run (c :: cs) w =
  (fst (invoke c w) :: fst (run cs (snd (invoke c w))),
   snd (run cs (snd (invoke c w)))).
Proof.
  cbn [run]. destruct (invoke c w) as [r w1]. cbn [fst snd].
  destruct (run cs w1) as [rs w2]. reflexivity.
Qed.

Lemma run_drawn (cs : list call) :
  forall w, drawn (self w) -> drawn (self (snd (run cs w))).
Proof.
  induction cs as [| c cs IH]; intros w Hd; [exact Hd |].
  rewrite run_cons. cbn [snd]. apply IH, invoke_drawn, Hd.
Qed.

Lemma init_drawn c value prefix bit_width tw lg :
  drawn (self (snd (__init__ c value prefix bit_width tw lg))).
Proof. rewrite init_self. apply redrawn_drawn. Qed.

Lemma shiftl_one_nonneg (p : Z) : 0 <= Z.shiftl 1 p.
Proof. apply Z.shiftl_nonneg. lia. Qed.

Lemma stored_value_nonneg (c : call) (s : BinaryLabel) (v : Z) :
  sets_nonneg c -> 0 <= _value s -> stored_value c s = Some v -> 0 <= v.
Proof.
  intros Hc Hs.
  assert (Hx : forall p, bit_write Z.lxor p s = Some v -> 0 <= v).
  { unfold bit_write; intros p; destruct (p <? 0); [discriminate |].
    intros [= <-]. apply Z.lxor_nonneg. pose proof (shiftl_one_nonneg p). tauto. }
  assert (Ho : forall p, bit_write Z.lor p s = Some v -> 0 <= v).
  { unfold bit_write; intros p; destruct (p <? 0); [discriminate |].
    intros [= <-]. apply Z.lor_nonneg. pose proof (shiftl_one_nonneg p). tauto. }
  assert (Ha : forall p,
    bit_write (fun v m => Z.land v (Z.lnot m)) p s = Some v -> 0 <= v).
  { unfold bit_write; intros p; destruct (p <? 0); [discriminate |].
    intros [= <-]. apply Z.land_nonneg. left. exact Hs. }
  destruct c; cbn [stored_value sets_nonneg] in *; eauto; try discriminate.
  intros [= <-]. exact Hc.
Qed.

(** On the specified domain every call leaves a label whose value is not
    negative and whose text is the specified rendering of that value. *)
Lemma invoke_rendering (prefix : pystr) (bit_width : Z) (c : call) (w : world) :
  1 <= bit_width -> sets_nonneg c ->
  _prefix (self w) = prefix -> _bit_width (self w) = bit_width ->
  0 <= _value (self w) ->
  text (self w) = spec_rendering prefix (_value (self w)) bit_width ->
  let s' := self (snd (invoke c w)) in
  _prefix s' = prefix /\ _bit_width s' = bit_width /\ 0 <= _value s' /\
  text s' = spec_rendering prefix (_value s') bit_width.
Proof.
  intros Hw Hc Hp Hb Hv Ht. cbv zeta. rewrite invoke_self.
  destruct (stored_value c (self w)) as [v |] eqn:Hst; [| tauto].
  pose proof (stored_value_nonneg _ _ _ Hc Hv Hst) as Hv'.
  repeat split; try assumption.
  change (text (redrawn v (self w))) with (rendering (set_value v (self w))).
  rewrite rendering_spec; cbn [set_value _value _bit_width _prefix];
    subst; try assumption; reflexivity.
Qed.

Lemma run_rendering (prefix : pystr) (bit_width : Z) (cs : list call) :
  1 <= bit_width -> Forall sets_nonneg cs ->
  forall w,
  _prefix (self w) = prefix -> _bit_width (self w) = bit_width ->
  0 <= _value (self w) ->
  text (self w) = spec_rendering prefix (_value (self w)) bit_width ->
  let s' := self (snd (run cs w)) in
  0 <= _value s' /\ text s' = spec_rendering prefix (_value s') bit_width.
Proof.
  intros Hw Hcs. induction Hcs as [| c cs Hc _ IH]; intros w Hp Hb Hv Ht.
  - split; assumption.
  - cbv zeta. rewrite run_cons. cbn [snd].
    destruct (invoke_rendering prefix bit_width c w Hw Hc Hp Hb Hv Ht)
      as (Hp' & Hb' & Hv' & Ht').
    apply IH; assumption.
Qed.

(** ** Rendering *)

(** C1.  For a bit width of at least 1 and a non-negative value, the text
    a label shows after its construction, and after any further sequence
    of method calls that set non-negative values, is the prefix followed
    by the binary digits of the current value, padded on the left with
    zeros to the bit width and cut to its rightmost bit-width characters;
    the value stays non-negative.  A label built from 256 with width 8
    shows eight zeros after its prefix. *)
Theorem rendering_matches_specification
    (c : label_class) (value : Z) (prefix : pystr) (bit_width : Z)
    (tw : bool) (lg : list pystr) (cs : list call) :
  1 <= bit_width -> 0 <= value -> Forall sets_nonneg cs ->
  let w0 := snd (__init__ c value prefix bit_width tw lg) in
  let s := self (snd (run cs w0)) in
  text (self w0) = spec_rendering prefix value bit_width /\
  0 <= _value s /\
  text s = spec_rendering prefix (_value s) bit_width /\
  text (self (snd (__init__ c 256 prefix 8 tw lg))) = prefix ++ lit "00000000".
Proof.
  intros Hw Hv Hcs. cbv zeta.
  assert (H0 : text (self (snd (__init__ c value prefix bit_width tw lg)))
               = spec_rendering prefix value bit_width).
  { rewrite init_self.
    change (text (redrawn value (mkLabel c value prefix bit_width tw [])))
      with (rendering (mkLabel c value prefix bit_width tw [])).
    apply (rendering_spec (mkLabel c value prefix bit_width tw [])); assumption. }
  split; [exact H0 |].
  apply and_assoc. split.
  - apply (run_rendering prefix bit_width cs Hw Hcs);
      rewrite init_self; try reflexivity; [exact Hv |].
    rewrite init_self in H0. exact H0.
  - rewrite init_self. reflexivity.
Qed.

Lemma rendering_matches_specification_witness :
  text (self (snd (run [Call_set 5; Call_toggle_bit 1; Call_set_msb]
                     (snd (__init__ BinaryLabel_cls 256 (lit "0b") 8 true [])))))
  = lit "0b10000111".
Proof.
  apply (rendering_matches_specification BinaryLabel_cls 256 (lit "0b") 8 true []
           [Call_set 5; Call_toggle_bit 1; Call_set_msb]).
  - lia.
  - lia.
  - repeat constructor. cbn. lia.
Defined.

(** ** Stored value *)

(** C6.  After [set(v)], for any integer [v], [get()] returns [v]
    itself, whatever the bit width and whatever text is on display. *)
Theorem get_after_set (v : Z) (w : world) :
  fst (set v w) = Ok PyNone /\
  fst (get (snd (set v w))) = Ok (PyInt v).
Proof.
  destruct w as [s lg]. step_methods.
  destruct (_ && _); split; reflexivity.
Qed.

(** ** Bit operations *)

Lemma toggle_bit_eq (p : Z) (w : world) :
  0 <= p ->
  toggle_bit p w =
  (Ok PyNone,
   mkWorld (redrawn (Z.lxor (_value (self w)) (Z.shiftl 1 p)) (self w)) (log w)).
Proof.
  intros Hp. destruct w as [s lg]. step_methods.
  replace (p <? 0) with false by (symmetry; apply Z.ltb_ge; exact Hp).
  reflexivity.
Qed.

(** C9.  On a label obtained from the constructor by any sequence of
    calls, two successive [toggle_bit(p)] with [0 <= p < bit_width] both
    return normally and give back the label as it was: same value, same
    text, nothing logged. *)
Theorem toggle_bit_twice
    (c : label_class) (value : Z) (prefix : pystr) (bit_width : Z)
    (tw : bool) (lg : list pystr) (cs : list call) (p : Z) :
  0 <= p < bit_width ->
  let w := snd (run cs (snd (__init__ c value prefix bit_width tw lg))) in
  let once := toggle_bit p w in
  let twice := toggle_bit p (snd once) in
  fst once = Ok PyNone /\ fst twice = Ok PyNone /\
  _value (self (snd twice)) = _value (self w) /\
  snd twice = w.
Proof.
  intros [Hp _]. cbv zeta.
  set (w := snd (run cs (snd (__init__ c value prefix bit_width tw lg)))).
  assert (Hd : drawn (self w)) by (apply run_drawn, init_drawn).
  rewrite (toggle_bit_eq p w Hp). cbn [fst snd].
  rewrite toggle_bit_eq by exact Hp. cbn [fst snd self log].
  assert (Hx : Z.lxor (Z.lxor (_value (self w)) (Z.shiftl 1 p)) (Z.shiftl 1 p)
               = _value (self w)).
  { rewrite Z.lxor_assoc, Z.lxor_nilpotent, Z.lxor_0_r. reflexivity. }
  repeat split; [exact Hx |].
  destruct w as [s l]. cbn [self log] in *. f_equal.
  unfold redrawn, rendering, set_text, set_value; cbn [_value _prefix _bit_width
    _truncation_warning cls text]. rewrite Hx.
  destruct s as [k v pf bw t tx]. unfold drawn, rendering in Hd.
  cbn [_value _prefix _bit_width _truncation_warning cls text] in *.
  rewrite <- Hd. reflexivity.
Qed.

Lemma toggle_bit_twice_witness :
  snd (toggle_bit 7
         (snd (toggle_bit 7
                 (snd (run [Call_set 5]
                         (snd (__init__ BinaryLabel_cls 255 [] 8 true [])))))))
  = snd (run [Call_set 5] (snd (__init__ BinaryLabel_cls 255 [] 8 true []))).
Proof.
  apply (toggle_bit_twice BinaryLabel_cls 255 [] 8 true [] [Call_set 5] 7).
  lia.
Defined.

(** C2, as the specification states it, fails: [get_bit(-1)] on a fresh
    label raises, the shift rejecting the negative count. *)
Lemma negative_position_raises :
  fst (get_bit (-1) (snd (__init__ BinaryLabel_cls 0 [] 8 true [])))
  = Raise negative_shift_count.
Proof. reflexivity. Qed.

(** C2, amended.  Each of [get_bit], [toggle_bit], [set_bit] and
    [clear_bit] returns normally at every position that is not negative,
    positions at or beyond the bit width included; at a negative position
    each raises the shift's [ValueError] and leaves the label and the log
    as they were. *)
Theorem bit_operations_raise_iff_negative (p : Z) (w : world) :
  if p <? 0
  then get_bit p w = (Raise negative_shift_count, w) /\
       toggle_bit p w = (Raise negative_shift_count, w) /\
       set_bit p w = (Raise negative_shift_count, w) /\
       clear_bit p w = (Raise negative_shift_count, w)
  else fst (get_bit p w) = Ok (PyInt (Z.land (_value (self w)) (Z.shiftl 1 p))) /\
       fst (toggle_bit p w) = Ok PyNone /\
       fst (set_bit p w) = Ok PyNone /\
       fst (clear_bit p w) = Ok PyNone.
Proof.
  destruct w as [s lg]. step_methods.
  destruct (p <? 0); repeat split; reflexivity.
Qed.

(** The mutating wrappers do what the operation they call does. *)
Lemma msb_lsb_writers (w : world) :
  let top := _bit_width (self w) - 1 in
  toggle_msb w = toggle_bit top w /\
  set_msb w = set_bit top w /\
  clear_msb w = clear_bit top w /\
  toggle_lsb w = toggle_bit 0 w /\
  set_lsb w = set_bit 0 w /\
  clear_lsb w = clear_bit 0 w.
Proof.
  destruct w as [s lg]. step_methods.
  destruct (_ <? 0); repeat split; reflexivity.
Qed.

(** The reading wrappers have the state effect of [get_bit], none. *)
Lemma msb_lsb_readers_state (w : world) :
  snd (get_msb w) = snd (get_bit (_bit_width (self w) - 1) w) /\
  snd (get_lsb w) = snd (get_bit 0 w).
Proof.
  destruct w as [s lg]. step_methods.
  destruct (_ <? 0); split; reflexivity.
Qed.

(** C3.  On a label holding 255 with width 8, [get_bit(7)] returns 128
    and [get_bit(0)] returns 1, while [get_msb()] and [get_lsb()] return
    [None]: the wrappers do not hand back the result of the call they
    make. *)
Theorem get_msb_get_lsb_return_None :
  let w := snd (__init__ BinaryLabel_cls 255 [] 8 true []) in
  fst (get_bit (_bit_width (self w) - 1) w) = Ok (PyInt 128) /\
  fst (get_msb w) = Ok PyNone /\
  fst (get_bit 0 w) = Ok (PyInt 1) /\
  fst (get_lsb w) = Ok PyNone.
Proof. repeat split; reflexivity. Qed.

(** ** Truncation warnings *)

Lemma warnings_for_warns (s : BinaryLabel) :
  warnings_for s =
  if warns (_truncation_warning s) (_value s) (_bit_width s)
  then [warning_of (cls s)] else [].
Proof.
  unfold warnings_for, warns, too_wide. rewrite checked_length. reflexivity.
Qed.

Lemma warns_nonneg (tw : bool) (v w : Z) :
  0 <= v -> warns tw v w = tw && (bin_length v >? w).
Proof.
  intros Hv. unfold warns.
  replace (v <? 0) with false by (symmetry; apply Z.ltb_ge; exact Hv).
  reflexivity.
Qed.

(** C5.  For a value that is not negative, construction and [set] log
    the warning exactly when warnings are enabled and the value has more
    binary digits than the bit width; they log it once, and store the
    value they were given.  No other method logs anything: [toggle_bit],
    [set_bit] and [clear_bit] leave the log as it is. *)
Theorem truncation_warning_iff_too_many_digits
    (c : label_class) (value : Z) (prefix : pystr) (bit_width : Z)
    (tw : bool) (lg : list pystr) (w : world) (k : call) :
  0 <= value ->
  (let w0 := snd (__init__ c value prefix bit_width tw lg) in
   log w0 = lg ++ (if tw && (bin_length value >? bit_width)
                   then [warning_of c] else []) /\
   _value (self w0) = value) /\
  (let w' := snd (set value w) in
   log w' = log w ++
     (if _truncation_warning (self w) && (bin_length value >? _bit_width (self w))
      then [warning_of (cls (self w))] else []) /\
   _value (self w') = value) /\
  log (snd (invoke k w)) =
  match k with
  | Call_set v => log (snd (set v w))
  | _ => log w
  end.
Proof.
  intros Hv. split; [| split].
  - cbv zeta. rewrite init_log, init_self, warnings_for_warns.
    cbn [_truncation_warning _value _bit_width cls].
    rewrite warns_nonneg by exact Hv. split; reflexivity.
  - cbv zeta. change (set value w) with (invoke (Call_set value) w).
    rewrite invoke_log, invoke_self. cbn [emitted stored_value].
    rewrite warnings_for_warns.
    cbn [set_value _truncation_warning _value _bit_width cls].
    rewrite warns_nonneg by exact Hv. split; reflexivity.
  - rewrite invoke_log.
    destruct k; cbn [emitted]; rewrite ?app_nil_r; try reflexivity.
    change (set value0 w) with (invoke (Call_set value0) w).
    rewrite invoke_log. reflexivity.
Qed.

Lemma truncation_warning_iff_too_many_digits_witness :
  log (snd (__init__ BinaryLabel_cls 256 [] 8 true [])) = [warning_of BinaryLabel_cls]
  /\ log (snd (set 255 (snd (__init__ BinaryLabel_cls 0 [] 8 true [])))) = [].
Proof.
  destruct (truncation_warning_iff_too_many_digits BinaryLabel_cls 256 [] 8 true []
              (snd (__init__ BinaryLabel_cls 0 [] 8 true [])) Call_get)
    as [[H _] _]; [lia |].
  destruct (truncation_warning_iff_too_many_digits BinaryLabel_cls 255 [] 8 true []
              (snd (__init__ BinaryLabel_cls 0 [] 8 true [])) Call_get)
    as [_ [[H' _] _]]; [lia |].
  split; [exact H | exact H'].
Defined.

(** ** ByteLabel *)

Lemma invoke_result_class (k : label_class) (c : call) (w1 w2 : world) :
  self w1 = with_class k (self w2) ->
  fst (invoke c w1) = fst (invoke c w2).
Proof.
  destruct w1 as [s1 l1], w2 as [s2 l2]. cbn [self]. intros ->.
  destruct s2 as [k2 v pf bw t tx].
  destruct c; step_methods; unfold with_class, too_wide, set_value;
    cbn [_value _prefix _bit_width _truncation_warning cls text];
    repeat match goal with
           | |- context [if ?b then _ else _] => destruct b
           end; reflexivity.
Qed.

Lemma invoke_self_class (k : label_class) (c : call) (w1 w2 : world) :
  self w1 = with_class k (self w2) ->
  self (snd (invoke c w1)) = with_class k (self (snd (invoke c w2))).
Proof.
  intros H. rewrite !invoke_self, H.
  replace (stored_value c (with_class k (self w2)))
    with (stored_value c (self w2))
    by (destruct c; reflexivity).
  destruct (stored_value c (self w2)); reflexivity.
Qed.

Lemma emitted_class (c : call) (s : BinaryLabel) :
  exists n, forall k, emitted c (with_class k s) = repeat (warning_of k) n.
Proof.
  destruct c; try (exists 0%nat; reflexivity).
  cbn [emitted]. unfold warnings_for, too_wide, with_class, set_value.
  cbn [_value _prefix _bit_width _truncation_warning cls text].
  destruct (_ && _); [exists 1%nat | exists 0%nat]; reflexivity.
Qed.

Lemma with_class_self (s : BinaryLabel) : with_class (cls s) s = s.
Proof. destruct s; reflexivity. Qed.

Lemma run_class (k1 k2 : label_class) (lg : list pystr) (cs : list call) :
  forall w1 w2 n,
  self w1 = with_class k1 (self w2) -> cls (self w2) = k2 ->
  log w1 = lg ++ repeat (warning_of k1) n ->
  log w2 = lg ++ repeat (warning_of k2) n ->
  fst (run cs w1) = fst (run cs w2) /\
  self (snd (run cs w1)) = with_class k1 (self (snd (run cs w2))) /\
  exists m, log (snd (run cs w1)) = lg ++ repeat (warning_of k1) m /\
            log (snd (run cs w2)) = lg ++ repeat (warning_of k2) m.
Proof.
  induction cs as [| c cs IH]; intros w1 w2 n Hs Hk H1 H2.
  - cbn [run fst snd]. repeat split; [exact Hs |]. exists n. split; assumption.
  - rewrite !run_cons. cbn [fst snd].
    destruct (emitted_class c (self w2)) as [m Hm].
    destruct (IH (snd (invoke c w1)) (snd (invoke c w2)) (n + m)%nat)
      as (Hr & Hs' & Hl).
    + apply invoke_self_class, Hs.
    + destruct (invoke_frame c w2) as (-> & _). exact Hk.
    + rewrite invoke_log, H1, Hs, Hm, repeat_app, app_assoc. reflexivity.
    + rewrite invoke_log, H2, <- (with_class_self (self w2)), Hk, Hm,
        repeat_app, app_assoc. reflexivity.
    + rewrite (invoke_result_class k1 c w1 w2 Hs), Hr.
      repeat split; assumption.
Qed.

(** C10, as the specification states it, fails: constructed from the same
    arguments, a [ByteLabel] and a [BinaryLabel] log different warnings,
    each naming its own class. *)
Lemma bytelabel_warning_differs :
  log (snd (__init__ ByteLabel_cls 256 [] 8 true []))
  <> log (snd (__init__ BinaryLabel_cls 256 [] 8 true [])).
Proof. vm_compute. discriminate. Qed.

(** C10, amended.  Constructed from the same arguments and driven by the
    same calls, a [ByteLabel] and a [BinaryLabel] return the same results
    call by call, raise at the same calls, hold the same attributes and
    show the same text, and log the same number of warnings; the warnings
    of each begin with the name of its own class. *)
Theorem bytelabel_behaves_as_binarylabel
    (value : Z) (prefix : pystr) (bit_width : Z) (tw : bool)
    (lg : list pystr) (cs : list call) :
  let byte := __init__ ByteLabel_cls value prefix bit_width tw lg in
  let binary := __init__ BinaryLabel_cls value prefix bit_width tw lg in
  fst byte = fst binary /\
  fst (run cs (snd byte)) = fst (run cs (snd binary)) /\
  self (snd (run cs (snd byte)))
  = with_class ByteLabel_cls (self (snd (run cs (snd binary)))) /\
  exists n,
    log (snd (run cs (snd byte))) = lg ++ repeat (warning_of ByteLabel_cls) n /\
    log (snd (run cs (snd binary))) = lg ++ repeat (warning_of BinaryLabel_cls) n.
Proof.
  cbv zeta. split; [rewrite !init_returns; reflexivity |].
  set (n := if warns tw value bit_width then 1%nat else 0%nat).
  apply (run_class ByteLabel_cls BinaryLabel_cls lg cs _ _ n).
  - rewrite !init_self. reflexivity.
  - rewrite init_self. reflexivity.
  - rewrite init_log, warnings_for_warns. subst n.
    cbn [_truncation_warning _value _bit_width cls].
    destruct (warns tw value bit_width); reflexivity.
  - rewrite init_log, warnings_for_warns. subst n.
    cbn [_truncation_warning _value _bit_width cls].
    destruct (warns tw value bit_width); reflexivity.
Qed.

(** ** Callbacks *)

Lemma call_function_var {U} (f : callable U) (args : list pyval) (e : env U) :
  var_value (snd (call_function f args e)) = var_value e /\
  calls (snd (call_function f args e)) = calls e ++ [args].
Proof.
  unfold call_function. destruct (accepts f (List.length args)).
  - destruct (body f args (var_value e) (user e)); split; reflexivity.
  - split; reflexivity.
Qed.

(** C4, as the specification states it, fails: a callback without
    parameters whose body raises [TypeError] is called a second time, with
    the value, although its first call bound its arguments. *)
Lemma retry_without_arity_mismatch :
  let e := mkEnv (PyStr (lit "one")) [] tt in
  accepts failing_inside 0 = true /\
  calls (snd (internal_callback failing_inside [] e))
  = [[]; [PyStr (lit "one")]].
Proof. split; reflexivity. Qed.

(** C4, amended.  The trace that [add_callback] registers, on a widget
    of any of the classes, first calls the callback without arguments,
    whatever arguments the notification carries; it calls it again, with
    what [self.get()] gives as only argument, exactly when that first call
    raised [TypeError], which an arity mismatch always does and which the
    callback's own body may do as well.  When the last call it made
    returns, the trace yields [None]. *)
Theorem adapter_retries_on_TypeError {U}
    (self_get : env U -> pyval) (callback : callable U) (w : SmartWidget U)
    (args : list pyval) (e : env U) :
  let first := call_function callback [] e in
  let fired := internal_callback_on self_get callback args e in
  In (internal_callback_on self_get callback)
     (traces (add_callback_on self_get callback w)) /\
  In (internal_callback callback) (traces (add_callback callback w)) /\
  calls (snd fired) =
    calls e ++ [] :: (if is_TypeError (fst first)
                      then [[self_get (snd first)]] else []) /\
  (accepts callback 0 || is_TypeError (fst first)) = true /\
  match fst fired with
  | Ok r => r = PyNone
  | Raise x =>
      fst first = Raise x \/
      fst (call_function callback [self_get (snd first)] (snd first)) = Raise x
  end.
Proof.
  cbv zeta. split; [| split; [| split; [| split]]].
  - unfold add_callback_on. cbn [traces]. apply in_or_app. right. left. reflexivity.
  - unfold add_callback. cbn [traces]. apply in_or_app. right. left. reflexivity.
  - unfold internal_callback_on.
    pose proof (call_function_var callback [] e) as [_ Hc].
    destruct (call_function callback [] e) as [[a | x] e1]; cbn [fst snd] in *;
      [exact Hc |].
    destruct x; cbn [is_TypeError]; try exact Hc.
    pose proof (call_function_var callback [self_get e1] e1) as [_ Hc'].
    destruct (call_function callback [self_get e1] e1) as [[a | x] e2];
      cbn [fst snd] in *; rewrite Hc', Hc, <- app_assoc; reflexivity.
  - unfold call_function. cbn [List.length].
    destruct (accepts callback 0); reflexivity.
  - unfold internal_callback_on.
    destruct (call_function callback [] e) as [[a | x] e1]; cbn [fst snd];
      [reflexivity |].
    destruct x; try (left; reflexivity).
    destruct (call_function callback [self_get e1] e1) as [[a | x] e2];
      cbn [fst snd]; [reflexivity | right; reflexivity].
Qed.

(** ** SmartOptionMenu *)

(** C7, as the specification states it, fails: an empty string supplied
    as initial value is not what the menu holds. *)
Lemma empty_initial_value_ignored :
  SmartOptionMenu_init (U := unit) [lit "one"; lit "two"] (Some []) None
  = Ok (mkWidget StringVar [], lit "one").
Proof. reflexivity. Qed.

(** C7, amended.  With at least one option, constructing the menu
    succeeds; its value is the first option when no initial value or an
    empty one is supplied, and the supplied string when that is not
    empty. *)
Theorem option_menu_initial_value {U}
    (first : pystr) (others : list pystr) (initial_value : option pystr)
    (callback : option (callable U)) :
  SmartOptionMenu_init (first :: others) initial_value callback
  = Ok (trace_if_given U callback (mkWidget StringVar []),
        match initial_value with
        | Some (c :: s) => c :: s
        | Some [] | None => first
        end).
Proof.
  unfold SmartOptionMenu_init.
  destruct initial_value as [[| c s] |]; reflexivity.
Qed.

(** ** SmartSpinBox *)

Lemma str_eqb_eq (a b : pystr) : str_eqb a b = true <-> a = b.
Proof.
  revert b. induction a as [| x a IH]; intros [| y b]; cbn [str_eqb];
    try (split; [discriminate | discriminate]); [tauto |].
  rewrite andb_true_iff, Ascii.eqb_eq, IH.
  split; [intros [-> ->]; reflexivity | intros [= -> ->]; split; reflexivity].
Qed.

Lemma py_eq_str_eq (v : pyval) (s : pystr) :
  py_eq_str v s = true <-> v = PyStr s.
Proof.
  destruct v; cbn [py_eq_str]; try (split; discriminate).
  rewrite str_eqb_eq. split; [intros -> | intros [= ->]]; reflexivity.
Qed.

(** C8.  Constructing a spin box fails with the entry-type error, the
    [ValueError] of the constructor's last branch, exactly when the entry
    type is none of ["str"], ["int"], ["float"]; with ["bool"] it does.
    With one of the three the constructor raises nothing of its own: it
    fails only when the native constructor does, with the native
    exception, of whatever class, and that one is assumed not to be the
    entry-type error itself. *)
Theorem spinbox_entry_type {U}
    (tk_Spinbox : list (pystr * pyval) -> option exn)
    (tk_Spinbox_get : env U -> pyval)
    (entry_type : pyval) (callback : option (callable U))
    (options : list (pystr * pyval)) :
  tk_Spinbox options <> Some (ValueError entry_type_message) ->
  let construct t := SmartSpinBox_init tk_Spinbox tk_Spinbox_get t callback options in
  let native v :=
    match tk_Spinbox options with
    | Some x => Raise x
    | None => Ok (trace_if_given_on tk_Spinbox_get callback (mkWidget v []))
    end in
  (construct entry_type = Raise (ValueError entry_type_message)
   <-> ~ In entry_type [PyStr (lit "str"); PyStr (lit "int"); PyStr (lit "float")])
  /\ construct (PyStr (lit "bool")) = Raise (ValueError entry_type_message)
  /\ construct (PyStr (lit "str")) = native StringVar
  /\ construct (PyStr (lit "int")) = native IntVar
  /\ construct (PyStr (lit "float")) = native DoubleVar.
Proof.
  intros Hnative. cbv zeta.
  split; [| repeat split; reflexivity].
  unfold SmartSpinBox_init.
  destruct (py_eq_str entry_type (lit "str")) eqn:Hs;
    [| destruct (py_eq_str entry_type (lit "int")) eqn:Hi;
       [| destruct (py_eq_str entry_type (lit "float")) eqn:Hf]].
  1-3: split;
    [ intros H; exfalso; destruct (tk_Spinbox options) as [x |];
      [apply Hnative; congruence | discriminate]
    | intros H; exfalso; apply H; cbn [In];
      rewrite ?py_eq_str_eq in *; subst; tauto ].
  split; [| intros _; reflexivity].
  intros _ [H | [H | [H | []]]]; symmetry in H;
    apply py_eq_str_eq in H; congruence.
Qed.

(** The native constructor failing with a [ValueError] of its own, as it
    does on a malformed [cnf], is within the theorem's assumption. *)
Lemma spinbox_entry_type_witness :
  SmartSpinBox_init (U := unit)
    (fun _ => Some (ValueError (lit "dictionary update sequence element #0 has length 1; 2 is required")))
    (fun _ => PyStr []) (PyStr (lit "int")) None [(lit "cnf", PyStr (lit "x"))]
  = Raise (ValueError (lit "dictionary update sequence element #0 has length 1; 2 is required")).
Proof.
  apply (spinbox_entry_type (U := unit)
           (fun _ => Some (ValueError (lit "dictionary update sequence element #0 has length 1; 2 is required")))
           (fun _ => PyStr []) (PyStr (lit "int")) None
           [(lit "cnf", PyStr (lit "x"))]).
  vm_compute. discriminate.
Defined.

(** ** Worked examples *)

Example render_255 :
  text (self (snd (__init__ BinaryLabel_cls 255 [] 8 true []))) = lit "11111111".
Proof. reflexivity. Qed.

Example render_255_prefixed :
  text (self (snd (__init__ BinaryLabel_cls 255 (lit "0b") 8 true [])))
  = lit "0b11111111".
Proof. reflexivity. Qed.

Example render_256_warns_once :
  let w := snd (__init__ BinaryLabel_cls 256 [] 8 true []) in
  text (self w) = lit "00000000" /\ log w = [warning_of BinaryLabel_cls].
Proof. split; reflexivity. Qed.

(** With a bit width of 0 the slice [[-0:]] keeps the whole string. *)
Example render_width_0 :
  text (self (snd (__init__ BinaryLabel_cls 5 [] 0 false []))) = lit "101".
Proof. reflexivity. Qed.

(** A negative value leaves the ["b"] of [bin] in the measured string. *)
Example render_negative :
  text (self (snd (__init__ BinaryLabel_cls (-5) [] 8 false []))) = lit "0000b101".
Proof. reflexivity. Qed.

Example set_then_get_bit :
  let w := snd (__init__ BinaryLabel_cls 0 [] 8 true []) in
  fst (get_bit 3 (snd (set_bit 3 w))) = Ok (PyInt 8) /\
  fst (get_bit 3 (snd (clear_bit 3 (snd (set_bit 3 w))))) = Ok (PyInt 0).
Proof. split; reflexivity. Qed.

(** * Further properties of the code *)

(** ** Single-bit writes *)

Lemma bit_method_eq (o : bit_operation) (p : Z) (w : world) :
  0 <= p ->
  bit_method o p w =
  (Ok PyNone, mkWorld (redrawn (bit_result o (_value (self w)) p) (self w)) (log w)).
Proof.
  intros Hp. destruct w as [s lg]. destruct o; cbn [bit_method bit_result];
    step_methods;
    replace (p <? 0) with false by (symmetry; apply Z.ltb_ge; exact Hp);
    reflexivity.
Qed.

Lemma redrawn_redrawn (v v' : Z) (s : BinaryLabel) :
  redrawn v' (redrawn v s) = redrawn v' s.
Proof. reflexivity. Qed.

Lemma bit_result_spec (o : bit_operation) (v p i : Z) :
  0 <= p -> 0 <= i ->
  Z.testbit (bit_result o v p) i =
  if i =? p then written_bit o (Z.testbit v p) else Z.testbit v i.
Proof.
  intros Hp Hi. rewrite (Z.eqb_sym i p).
  destruct o; cbn [bit_result written_bit]; rewrite Z.shiftl_1_l;
    rewrite ?Z.lxor_spec, ?Z.lor_spec, ?Z.land_spec, ?Z.lnot_spec by exact Hi;
    rewrite Z.pow2_bits_eqb by exact Hp;
    destruct (Z.eqb_spec p i) as [-> | Hne];
    destruct (Z.testbit v i); reflexivity.
Qed.

Lemma land_mask (v p : Z) :
  0 <= p -> Z.land v (Z.shiftl 1 p) = if Z.testbit v p then 2 ^ p else 0.
Proof.
  intros Hp. rewrite Z.shiftl_1_l. apply Z.bits_inj'. intros i Hi.
  rewrite Z.land_spec, Z.pow2_bits_eqb by exact Hp.
  destruct (Z.eqb_spec p i) as [-> | Hne].
  - destruct (Z.testbit v i); rewrite ?Z.pow2_bits_true, ?Z.bits_0 by exact Hp;
      reflexivity.
  - rewrite andb_false_r.
    destruct (Z.testbit v p); rewrite ?Z.pow2_bits_false, ?Z.bits_0 by exact Hne;
      reflexivity.
Qed.

(** [get_bit] at a position that is not negative returns the weight
    of the bit when it is set and 0 when it is clear, and changes
    nothing. *)
Theorem get_bit_value (p : Z) (w : world) :
  0 <= p ->
  get_bit p w =
  (Ok (PyInt (if Z.testbit (_value (self w)) p then 2 ^ p else 0)), w).
Proof.
  intros Hp. destruct w as [s lg]. step_methods.
  replace (p <? 0) with false by (symmetry; apply Z.ltb_ge; exact Hp).
  rewrite land_mask by exact Hp. reflexivity.
Qed.

Lemma get_bit_value_witness :
  get_bit 3 (snd (__init__ BinaryLabel_cls 12 [] 8 true []))
  = (Ok (PyInt 8), snd (__init__ BinaryLabel_cls 12 [] 8 true [])).
Proof. apply (get_bit_value 3). lia. Defined.

(** A write at position [p] changes bit [p] of the stored value as its
    name says and no other bit. *)
Theorem bit_write_touches_one_bit (o : bit_operation) (p i : Z) (w : world) :
  0 <= p -> 0 <= i ->
  Z.testbit (_value (self (snd (bit_method o p w)))) i =
  if i =? p then written_bit o (Z.testbit (_value (self w)) p)
  else Z.testbit (_value (self w)) i.
Proof.
  intros Hp Hi. rewrite bit_method_eq by exact Hp. cbn [snd self].
  change (_value (redrawn ?v ?s)) with v.
  apply bit_result_spec; assumption.
Qed.

Lemma bit_write_touches_one_bit_witness :
  Z.testbit (_value (self (snd (bit_method Toggle_op 2
     (snd (__init__ BinaryLabel_cls 5 [] 8 true [])))))) 0 = true.
Proof.
  apply (bit_write_touches_one_bit Toggle_op 2 0
           (snd (__init__ BinaryLabel_cls 5 [] 8 true []))); lia.
Defined.

(** Reading a bit right after writing it: [set_bit] then [get_bit]
    gives the weight [2 ^ p], which is not zero; [clear_bit] then [get_bit]
    gives 0; [toggle_bit] then [get_bit] gives the opposite of before. *)
Theorem get_bit_after_write (o : bit_operation) (p : Z) (w : world) :
  0 <= p ->
  fst (get_bit p (snd (bit_method o p w))) =
  Ok (PyInt (if written_bit o (Z.testbit (_value (self w)) p) then 2 ^ p else 0))
  /\ 2 ^ p <> 0.
Proof.
  intros Hp. split; [| apply Z.pow_nonzero; lia].
  rewrite bit_method_eq by exact Hp. cbn [snd].
  destruct w as [s lg]. step_methods.
  replace (p <? 0) with false by (symmetry; apply Z.ltb_ge; exact Hp).
  change (_value (redrawn ?v ?x)) with v.
  rewrite land_mask, bit_result_spec, Z.eqb_refl by exact Hp. reflexivity.
Qed.

Lemma get_bit_after_write_witness :
  fst (get_bit 7 (snd (bit_method Set_op 7
        (snd (__init__ BinaryLabel_cls 0 [] 8 true [])))))
  = Ok (PyInt 128).
Proof.
  apply (get_bit_after_write Set_op 7
           (snd (__init__ BinaryLabel_cls 0 [] 8 true []))). lia.
Defined.

Lemma bit_result_override (o1 o2 : bit_operation) (v p : Z) :
  0 <= p -> o2 <> Toggle_op ->
  bit_result o2 (bit_result o1 v p) p = bit_result o2 v p.
Proof.
  intros Hp Ho. apply Z.bits_inj'. intros i Hi.
  rewrite !bit_result_spec by assumption.
  destruct (i =? p); [| reflexivity].
  destruct o2; [contradiction | reflexivity | reflexivity].
Qed.

(** A [set_bit] or [clear_bit] overrides any write made just before at
    the same position: the label is as if only the last call had been
    made.  In particular each of the two is idempotent. *)
Theorem last_set_or_clear_wins (o1 o2 : bit_operation) (p : Z) (w : world) :
  0 <= p -> o2 <> Toggle_op ->
  snd (bit_method o2 p (snd (bit_method o1 p w))) = snd (bit_method o2 p w).
Proof.
  intros Hp Ho. rewrite !bit_method_eq by exact Hp. cbn [snd self log].
  change (_value (redrawn ?v ?s)) with v.
  rewrite redrawn_redrawn, bit_result_override by assumption. reflexivity.
Qed.

Lemma last_set_or_clear_wins_witness :
  snd (bit_method Clear_op 0 (snd (bit_method Set_op 0
        (snd (__init__ BinaryLabel_cls 6 [] 8 true [])))))
  = snd (bit_method Clear_op 0 (snd (__init__ BinaryLabel_cls 6 [] 8 true []))).
Proof.
  apply (last_set_or_clear_wins Set_op Clear_op 0); [lia | discriminate].
Defined.

(** [toggle_bit] does what [clear_bit] does when the bit is set and
    what [set_bit] does when it is clear. *)
Theorem toggle_is_set_or_clear (p : Z) (w : world) :
  0 <= p ->
  toggle_bit p w =
  if Z.testbit (_value (self w)) p then clear_bit p w else set_bit p w.
Proof.
  intros Hp.
  change (toggle_bit p w) with (bit_method Toggle_op p w).
  change (clear_bit p w) with (bit_method Clear_op p w).
  change (set_bit p w) with (bit_method Set_op p w).
  rewrite !bit_method_eq by exact Hp.
  assert (H : bit_result Toggle_op (_value (self w)) p =
              if Z.testbit (_value (self w)) p
              then bit_result Clear_op (_value (self w)) p
              else bit_result Set_op (_value (self w)) p).
  { apply Z.bits_inj'. intros i Hi.
    destruct (Z.testbit (_value (self w)) p) eqn:Hb;
      rewrite !bit_result_spec by assumption; rewrite Hb; reflexivity. }
  rewrite H. destruct (Z.testbit (_value (self w)) p); reflexivity.
Qed.

Lemma toggle_is_set_or_clear_witness :
  toggle_bit 1 (snd (__init__ BinaryLabel_cls 2 [] 8 true []))
  = clear_bit 1 (snd (__init__ BinaryLabel_cls 2 [] 8 true [])).
Proof. apply (toggle_is_set_or_clear 1). lia. Defined.

(** Writes at two different positions can be made in either order. *)
Theorem bit_writes_commute (o1 o2 : bit_operation) (p q : Z) (w : world) :
  0 <= p -> 0 <= q -> p <> q ->
  snd (bit_method o2 q (snd (bit_method o1 p w)))
  = snd (bit_method o1 p (snd (bit_method o2 q w))).
Proof.
  intros Hp Hq Hpq. rewrite !bit_method_eq by assumption. cbn [snd self log].
  change (_value (redrawn ?v ?s)) with v. rewrite !redrawn_redrawn.
  f_equal. f_equal. apply Z.bits_inj'. intros i Hi.
  rewrite !bit_result_spec by assumption.
  destruct (Z.eqb_spec i q) as [Hiq | Hiq], (Z.eqb_spec i p) as [Hip | Hip];
    try reflexivity; [congruence | subst i | subst i].
  - replace (q =? p) with false by (symmetry; apply Z.eqb_neq; congruence).
    reflexivity.
  - replace (p =? q) with false by (symmetry; apply Z.eqb_neq; congruence).
    reflexivity.
Qed.

Lemma bit_writes_commute_witness :
  snd (bit_method Clear_op 0 (snd (bit_method Toggle_op 3
        (snd (__init__ BinaryLabel_cls 5 [] 8 true [])))))
  = snd (bit_method Toggle_op 3 (snd (bit_method Clear_op 0
        (snd (__init__ BinaryLabel_cls 5 [] 8 true []))))).
Proof. apply (bit_writes_commute Toggle_op Clear_op 3 0); lia. Defined.

(** A call raises exactly when the position it shifts by is negative,
    which for the [msb] wrappers means a bit width below 1; it then raises
    the shift's [ValueError] and leaves the label and the log untouched. *)
Theorem invoke_raises_iff_negative_shift (c : call) (w : world) :
  if shifts_negative c (self w)
  then invoke c w = (Raise negative_shift_count, w)
  else raises (fst (invoke c w)) = false.
Proof.
  destruct w as [s lg]. unfold shifts_negative.
  destruct c; cbn [shifted_position self]; step_methods;
    try (destruct (_ <? 0); reflexivity).
  - reflexivity.
  - destruct (_ && _); reflexivity.
Qed.

(** ** The displayed text, character by character *)

Lemma run_frame (cs : list call) :
  forall w,
  let s' := self (snd (run cs w)) in
  cls s' = cls (self w) /\ _prefix s' = _prefix (self w) /\
  _bit_width s' = _bit_width (self w) /\
  _truncation_warning s' = _truncation_warning (self w).
Proof.
  induction cs as [| c cs IH]; intros w; cbv zeta.
  - repeat split; reflexivity.
  - rewrite run_cons. cbn [snd].
    destruct (IH (snd (invoke c w))) as (-> & -> & -> & ->).
    apply invoke_frame.
Qed.

Lemma zfill_length (w : Z) (s : pystr) : len (zfill w s) = Z.max (len s) w.
Proof.
  unfold zfill. destruct (Z.geb_spec (len s) w) as [Hge | Hlt]; [lia |].
  unfold len in *. destruct s as [| c rest].
  - rewrite repeat_length. cbn [List.length] in *. lia.
  - destruct (is_sign c); cbn [List.length];
      rewrite ?length_app, repeat_length; cbn [List.length] in *; lia.
Qed.

Lemma slice_from_length (i : Z) (s : pystr) :
  len (slice_from i s) =
  if i <? 0 then Z.min (- i) (len s) else Z.max 0 (len s - i).
Proof.
  unfold slice_from, len. rewrite length_skipn.
  destruct (Z.ltb_spec i 0); lia.
Qed.

Lemma rendering_length (s : BinaryLabel) :
  1 <= _bit_width s -> len (rendering s) = len (_prefix s) + _bit_width s.
Proof.
  intros Hw. unfold rendering.
  assert (Hb : len (slice_from (- _bit_width s)
                 (zfill (_bit_width s) (slice_from 2 (bin (_value s)))))
               = _bit_width s).
  { rewrite slice_from_length, zfill_length.
    replace (- _bit_width s <? 0) with true by (symmetry; apply Z.ltb_lt; lia).
    lia. }
  unfold len in *. rewrite length_app. lia.
Qed.

(** With a bit width of at least 1 the text always has the length of
    the prefix plus the bit width, for every value, negative ones
    included, and after any calls. *)
Theorem text_length
    (c : label_class) (value : Z) (prefix : pystr) (bit_width : Z)
    (tw : bool) (lg : list pystr) (cs : list call) :
  1 <= bit_width ->
  len (text (self (snd (run cs (snd (__init__ c value prefix bit_width tw lg))))))
  = len prefix + bit_width.
Proof.
  intros Hw.
  pose proof (run_drawn cs _ (init_drawn c value prefix bit_width tw lg)) as Hd.
  destruct (run_frame cs (snd (__init__ c value prefix bit_width tw lg)))
    as (_ & Hp & Hb & _).
  rewrite init_self in Hp, Hb.
  cbn [redrawn set_text set_value _prefix _bit_width] in Hp, Hb.
  rewrite Hd, rendering_length; rewrite Hb; [rewrite Hp; reflexivity | exact Hw].
Qed.

Lemma text_length_witness :
  len (text (self (snd (run [Call_set (-1000); Call_toggle_bit 40]
                          (snd (__init__ ByteLabel_cls 3 (lit "0b") 8 true [])))))) = 10.
Proof.
  apply (text_length ByteLabel_cls 3 (lit "0b") 8 true []
           [Call_set (-1000); Call_toggle_bit 40]). lia.
Defined.


Lemma bin_digits_nth (p : positive) :
  forall i, nth i (rev (bin_digits p)) "0"%char
            = bitc (Z.testbit (Zpos p) (Z.of_nat i)).
Proof.
  induction p as [p IH | p IH |]; intros [| i]; cbn [bin_digits];
    rewrite ?rev_unit; cbn [rev app nth]; try reflexivity.
  - rewrite IH, Nat2Z.inj_succ, Pos2Z.inj_xI, Z.testbit_odd_succ by lia.
    reflexivity.
  - rewrite IH, Nat2Z.inj_succ, Pos2Z.inj_xO, Z.testbit_even_succ by lia.
    reflexivity.
  - rewrite Nat2Z.inj_succ. change 1 with (2 * 0 + 1).
    rewrite Z.testbit_odd_succ, Z.testbit_0_l by lia.
    destruct i; reflexivity.
Qed.

Lemma digits_nth (v : Z) (i : nat) :
  0 <= v ->
  nth i (rev (binary_digit_string v)) "0"%char = bitc (Z.testbit v (Z.of_nat i)).
Proof.
  destruct v as [| p | p]; intros Hv; try lia.
  - rewrite Z.testbit_0_l. destruct i as [| [| i]]; reflexivity.
  - rewrite binary_digit_string_pos. apply bin_digits_nth.
Qed.

Lemma left_pad_length (n : nat) (d : pystr) :
  List.length (left_pad n d) = Nat.max n (List.length d).
Proof. unfold left_pad. rewrite length_app, repeat_length. lia. Qed.

Lemma body_length (n : nat) (d : pystr) :
  List.length (rightmost n (left_pad n d)) = n.
Proof.
  unfold rightmost. rewrite length_skipn, left_pad_length. lia.
Qed.

Lemma body_nth (n : nat) (d : pystr) (i : nat) :
  (i < n)%nat ->
  nth i (rev (rightmost n (left_pad n d))) "0"%char = nth i (rev d) "0"%char.
Proof.
  intros Hi. unfold rightmost. rewrite <- firstn_rev, nth_firstn.
  replace (i <? n)%nat with true by (symmetry; apply Nat.ltb_lt; exact Hi).
  unfold left_pad. rewrite rev_app_distr, rev_repeat.
  destruct (Nat.lt_ge_cases i (List.length (rev d))) as [Hlt | Hge].
  - apply app_nth1. exact Hlt.
  - rewrite app_nth2 by exact Hge. rewrite nth_repeat.
    symmetry. apply nth_overflow. exact Hge.
Qed.

Lemma char_from_right_app (i : Z) (pre body : pystr) :
  0 <= i < len body ->
  char_from_right i (pre ++ body) = char_from_right i body.
Proof.
  intros Hi. unfold char_from_right, len in *. rewrite rev_app_distr.
  apply app_nth1. rewrite length_rev. lia.
Qed.

Lemma spec_rendering_char (prefix : pystr) (v w i : Z) :
  0 <= v -> 0 <= i < w ->
  char_from_right i (spec_rendering prefix v w) = bitc (Z.testbit v i).
Proof.
  intros Hv Hi. unfold spec_rendering.
  rewrite char_from_right_app
    by (unfold len; rewrite body_length; lia).
  unfold char_from_right. rewrite body_nth by lia.
  rewrite digits_nth by exact Hv. rewrite Z2Nat.id by lia. reflexivity.
Qed.

(** On a label built with a non-negative value and a bit width of at
    least 1, and driven by calls that set non-negative values, the
    character [i] places from the right end of the text, for
    [0 <= i < bit_width], is ["1"] when bit [i] of the stored value is set
    and ["0"] when it is clear. *)
Theorem text_shows_low_bits
    (c : label_class) (value : Z) (prefix : pystr) (bit_width : Z)
    (tw : bool) (lg : list pystr) (cs : list call) (i : Z) :
  1 <= bit_width -> 0 <= value -> Forall sets_nonneg cs ->
  0 <= i < bit_width ->
  let s := self (snd (run cs (snd (__init__ c value prefix bit_width tw lg)))) in
  char_from_right i (text s) =
  if Z.testbit (_value s) i then "1"%char else "0"%char.
Proof.
  intros Hw Hv Hcs Hi. cbv zeta.
  set (w0 := snd (__init__ c value prefix bit_width tw lg)).
  destruct (run_rendering prefix bit_width cs Hw Hcs w0) as [Hv' Ht].
  - unfold w0. rewrite init_self. reflexivity.
  - unfold w0. rewrite init_self. reflexivity.
  - unfold w0. rewrite init_self. exact Hv.
  - unfold w0. rewrite init_self.
    change (text (redrawn value (mkLabel c value prefix bit_width tw [])))
      with (rendering (mkLabel c value prefix bit_width tw [])).
    apply (rendering_spec (mkLabel c value prefix bit_width tw [])); assumption.
  - rewrite Ht. apply spec_rendering_char; assumption.
Qed.

Lemma text_shows_low_bits_witness :
  char_from_right 2
    (text (self (snd (run [Call_set 5]
                        (snd (__init__ BinaryLabel_cls 0 (lit "0b") 8 true []))))))
  = "1"%char.
Proof.
  apply (text_shows_low_bits BinaryLabel_cls 0 (lit "0b") 8 true [] [Call_set 5] 2).
  - lia.
  - lia.
  - repeat constructor. cbn. lia.
  - lia.
Defined.

(** What holds of a label built and driven inside the specified domain. *)
Lemma built_state
    (c : label_class) (value : Z) (prefix : pystr) (bit_width : Z)
    (tw : bool) (lg : list pystr) (cs : list call) :
  1 <= bit_width -> 0 <= value -> Forall sets_nonneg cs ->
  let s := self (snd (run cs (snd (__init__ c value prefix bit_width tw lg)))) in
  _prefix s = prefix /\ _bit_width s = bit_width /\ 0 <= _value s /\
  text s = spec_rendering prefix (_value s) bit_width.
Proof.
  intros Hw Hv Hcs. cbv zeta.
  destruct (run_frame cs (snd (__init__ c value prefix bit_width tw lg)))
    as (_ & Hp & Hb & _).
  rewrite init_self in Hp, Hb.
  split; [exact Hp | split; [exact Hb |]].
  apply (run_rendering prefix bit_width cs Hw Hcs);
    rewrite init_self; try reflexivity; [exact Hv |].
  change (text (redrawn value (mkLabel c value prefix bit_width tw [])))
    with (rendering (mkLabel c value prefix bit_width tw [])).
  apply (rendering_spec (mkLabel c value prefix bit_width tw [])); assumption.
Qed.

Lemma spec_rendering_ext (prefix : pystr) (v v' w : Z) :
  0 <= v -> 0 <= v' ->
  (forall i, 0 <= i < w -> Z.testbit v i = Z.testbit v' i) ->
  spec_rendering prefix v w = spec_rendering prefix v' w.
Proof.
  intros Hv Hv' Hbits. unfold spec_rendering. f_equal. apply rev_inj.
  apply (nth_ext _ _ "0"%char "0"%char).
  - rewrite !length_rev, !body_length. reflexivity.
  - intros n Hn. rewrite length_rev, body_length in Hn.
    rewrite !body_nth, !digits_nth by assumption.
    rewrite Hbits by lia. reflexivity.
Qed.

(** Two non-negative values that agree modulo [2 ^ bit_width] are shown
    by the same text: [set] of the one and [set] of the other leave the
    same display. *)
Theorem set_shows_value_modulo_width (v v' : Z) (w : world) :
  1 <= _bit_width (self w) -> 0 <= v -> 0 <= v' ->
  v mod 2 ^ _bit_width (self w) = v' mod 2 ^ _bit_width (self w) ->
  text (self (snd (set v w))) = text (self (snd (set v' w))).
Proof.
  intros Hw Hv Hv' Hmod.
  change (set v w) with (invoke (Call_set v) w).
  change (set v' w) with (invoke (Call_set v') w).
  rewrite !invoke_self. cbn [stored_value].
  change (text (redrawn ?x ?s)) with (rendering (set_value x s)).
  rewrite !rendering_spec by assumption.
  cbn [set_value _prefix _value _bit_width].
  apply spec_rendering_ext; try assumption.
  intros i Hi.
  rewrite <- (Z.mod_pow2_bits_low v (_bit_width (self w)) i) by lia.
  rewrite <- (Z.mod_pow2_bits_low v' (_bit_width (self w)) i) by lia.
  rewrite Hmod. reflexivity.
Qed.

Lemma set_shows_value_modulo_width_witness :
  text (self (snd (set 256 (snd (__init__ BinaryLabel_cls 7 [] 8 false [])))))
  = text (self (snd (set 0 (snd (__init__ BinaryLabel_cls 7 [] 8 false []))))).
Proof.
  apply (set_shows_value_modulo_width 256 0).
  - simpl. lia.
  - lia.
  - lia.
  - reflexivity.
Defined.

(** A write at a position at or beyond the bit width changes the stored
    value only above the displayed bits: the text stays as it was. *)
Theorem write_beyond_width_is_invisible
    (c : label_class) (value : Z) (prefix : pystr) (bit_width : Z)
    (tw : bool) (lg : list pystr) (cs : list call)
    (o : bit_operation) (p : Z) :
  1 <= bit_width -> 0 <= value -> Forall sets_nonneg cs -> bit_width <= p ->
  let w := snd (run cs (snd (__init__ c value prefix bit_width tw lg))) in
  text (self (snd (bit_method o p w))) = text (self w) /\
  _value (self (snd (bit_method o p w))) = bit_result o (_value (self w)) p.
Proof.
  intros Hw Hv Hcs Hp. cbv zeta.
  destruct (built_state c value prefix bit_width tw lg cs Hw Hv Hcs)
    as (Hpre & Hbw & Hv' & Ht).
  set (w := snd (run cs (snd (__init__ c value prefix bit_width tw lg)))) in *.
  rewrite bit_method_eq by lia. cbn [snd self].
  split; [| reflexivity].
  change (text (redrawn ?x ?s)) with (rendering (set_value x s)).
  assert (Hnew : 0 <= bit_result o (_value (self w)) p).
  { destruct o; cbn [bit_result].
    - apply Z.lxor_nonneg. pose proof (shiftl_one_nonneg p). tauto.
    - apply Z.lor_nonneg. pose proof (shiftl_one_nonneg p). tauto.
    - apply Z.land_nonneg. left. exact Hv'. }
  rewrite rendering_spec; cbn [set_value _prefix _value _bit_width];
    [| exact Hnew | lia].
  rewrite Ht, Hpre, Hbw. apply spec_rendering_ext; try assumption.
  intros i Hi. rewrite bit_result_spec by lia.
  replace (i =? p) with false by (symmetry; apply Z.eqb_neq; lia).
  reflexivity.
Qed.

Lemma write_beyond_width_is_invisible_witness :
  text (self (snd (bit_method Set_op 8
     (snd (run [] (snd (__init__ BinaryLabel_cls 1 [] 8 true [])))))))
  = text (self (snd (run [] (snd (__init__ BinaryLabel_cls 1 [] 8 true []))))).
Proof.
  apply (write_beyond_width_is_invisible BinaryLabel_cls 1 [] 8 true [] []
           Set_op 8); try lia. constructor.
Defined.

(** ** When the warning comes *)

Lemma warns_threshold (tw : bool) (v w : Z) :
  0 <= v -> 1 <= w -> warns tw v w = tw && (2 ^ w <=? v).
Proof.
  intros Hv Hw. unfold warns. f_equal.
  replace (v <? 0) with false by (symmetry; apply Z.ltb_ge; exact Hv).
  destruct (Z.eq_dec v 0) as [-> | Hnz].
  - change (bin_length 0) with 1.
    pose proof (Z.pow_pos_nonneg 2 w). 
    destruct (Z.gtb_spec 1 w), (Z.leb_spec (2 ^ w) 0); try reflexivity; lia.
  - rewrite bin_length_log2 by exact Hnz. rewrite Z.abs_eq by exact Hv.
    pose proof (Z.log2_lt_pow2 v w).
    destruct (Z.gtb_spec (Z.log2 v + 1) w), (Z.leb_spec (2 ^ w) v);
      try reflexivity; lia.
Qed.

(** For a non-negative value and a bit width of at least 1, construction
    and [set] log the warning exactly when warnings are enabled and the
    value is at least [2 ^ bit_width], that is, when it does not fit. *)
Theorem warning_iff_value_does_not_fit
    (c : label_class) (value : Z) (prefix : pystr) (bit_width : Z)
    (tw : bool) (lg : list pystr) (w : world) :
  1 <= bit_width -> 0 <= value -> _bit_width (self w) = bit_width ->
  log (snd (__init__ c value prefix bit_width tw lg))
  = lg ++ (if tw && (2 ^ bit_width <=? value) then [warning_of c] else []) /\
  log (snd (set value w))
  = log w ++ (if _truncation_warning (self w) && (2 ^ bit_width <=? value)
              then [warning_of (cls (self w))] else []).
Proof.
  intros Hw Hv Hb. split.
  - rewrite init_log, warnings_for_warns.
    cbn [_truncation_warning _value _bit_width cls].
    rewrite warns_threshold by assumption. reflexivity.
  - change (set value w) with (invoke (Call_set value) w).
    rewrite invoke_log. cbn [emitted]. rewrite warnings_for_warns.
    cbn [set_value _truncation_warning _value _bit_width cls].
    rewrite Hb, warns_threshold by assumption. reflexivity.
Qed.

Lemma warning_iff_value_does_not_fit_witness :
  log (snd (set 255 (snd (__init__ BinaryLabel_cls 0 [] 8 true [])))) = [].
Proof.
  apply (warning_iff_value_does_not_fit BinaryLabel_cls 255 [] 8 true []
           (snd (__init__ BinaryLabel_cls 0 [] 8 true []))); try lia.
  reflexivity.
Defined.

(** ** Reading the text back *)

Lemma binary_value_snoc (t : pystr) (c : ascii) :
  binary_value (t ++ [c])
  = 2 * binary_value t + (if Ascii.eqb c "1" then 1 else 0).
Proof. unfold binary_value. rewrite fold_left_app. reflexivity. Qed.

Lemma binary_value_app (s t : pystr) :
  binary_value (s ++ t) = binary_value s * 2 ^ len t + binary_value t.
Proof.
  induction t as [| c t IH] using rev_ind.
  - rewrite app_nil_r. change (binary_value []) with 0. cbn. lia.
  - rewrite app_assoc, !binary_value_snoc, IH. unfold len.
    rewrite length_app. cbn [List.length].
    rewrite Nat2Z.inj_add, Z.pow_add_r by lia. change (2 ^ Z.of_nat 1) with 2.
    lia.
Qed.

Lemma binary_value_bound (t : pystr) : 0 <= binary_value t < 2 ^ len t.
Proof.
  induction t as [| c t IH] using rev_ind.
  - change (binary_value []) with 0. cbn. lia.
  - rewrite binary_value_snoc. unfold len in *.
    rewrite length_app. cbn [List.length].
    rewrite Nat2Z.inj_add, Z.pow_add_r by lia. change (2 ^ Z.of_nat 1) with 2.
    destruct (Ascii.eqb c "1"); lia.
Qed.

Lemma binary_value_bin_digits (p : positive) :
  binary_value (bin_digits p) = Zpos p.
Proof.
  induction p as [p IH | p IH |]; cbn [bin_digits];
    rewrite ?binary_value_snoc, ?IH; cbn [Ascii.eqb]; try reflexivity; lia.
Qed.

Lemma binary_value_digits (v : Z) :
  0 <= v -> binary_value (binary_digit_string v) = v.
Proof.
  destruct v as [| p | p]; intros Hv; try lia; [reflexivity |].
  rewrite binary_digit_string_pos. apply binary_value_bin_digits.
Qed.

Lemma binary_value_zeros (k : nat) : binary_value (repeat "0"%char k) = 0.
Proof.
  induction k as [| k IH]; [reflexivity |].
  change (repeat "0"%char (S k)) with (["0"%char] ++ repeat "0"%char k).
  rewrite binary_value_app, IH. reflexivity.
Qed.

Lemma binary_value_body (n : nat) (d : pystr) :
  binary_value (rightmost n (left_pad n d))
  = binary_value d mod 2 ^ Z.of_nat n.
Proof.
  pose proof (body_length n d) as Hlen.
  pose proof (binary_value_bound (rightmost n (left_pad n d))) as Hb.
  unfold len in Hb. rewrite Hlen in Hb.
  set (l := left_pad n d) in *.
  apply Z.mod_unique
    with (q := binary_value (firstn (List.length l - n) l)); [left; exact Hb |].
  assert (Hl : binary_value l = binary_value d).
  { unfold l, left_pad. rewrite binary_value_app, binary_value_zeros. lia. }
  rewrite <- Hl.
  rewrite <- (firstn_skipn (List.length l - n) l) at 1.
  rewrite binary_value_app. unfold rightmost, len in *. rewrite Hlen. lia.
Qed.

Lemma slice_from_prefix (pre body : pystr) :
  slice_from (len pre) (pre ++ body) = body.
Proof.
  unfold slice_from, len. rewrite length_app.
  replace (Z.of_nat (List.length pre) <? 0) with false
    by (symmetry; apply Z.ltb_ge; lia).
  rewrite Z.min_l by lia. rewrite Nat2Z.id, skipn_app, skipn_all, Nat.sub_diag.
  reflexivity.
Qed.

(** On a label built with a non-negative value and a bit width of at
    least 1, and driven by calls that set non-negative values, the text
    after the prefix, read as a binary number, is the stored value modulo
    [2 ^ bit_width]; it is the stored value itself when that is below
    [2 ^ bit_width]. *)
Theorem text_reads_back
    (c : label_class) (value : Z) (prefix : pystr) (bit_width : Z)
    (tw : bool) (lg : list pystr) (cs : list call) :
  1 <= bit_width -> 0 <= value -> Forall sets_nonneg cs ->
  let s := self (snd (run cs (snd (__init__ c value prefix bit_width tw lg)))) in
  binary_value (slice_from (len prefix) (text s))
  = _value s mod 2 ^ bit_width.
Proof.
  intros Hw Hv Hcs. cbv zeta.
  destruct (built_state c value prefix bit_width tw lg cs Hw Hv Hcs)
    as (_ & _ & Hv' & ->).
  unfold spec_rendering. rewrite slice_from_prefix, binary_value_body.
  rewrite binary_value_digits by exact Hv'. rewrite Z2Nat.id by lia.
  reflexivity.
Qed.

Lemma text_reads_back_witness :
  binary_value (slice_from (len (lit "0b"))
    (text (self (snd (run [Call_set 300]
                        (snd (__init__ BinaryLabel_cls 0 (lit "0b") 8 true [])))))))
  = 44.
Proof.
  apply (text_reads_back BinaryLabel_cls 0 (lit "0b") 8 true [] [Call_set 300]).
  - lia.
  - lia.
  - repeat constructor. cbn. lia.
Defined.

(** ** Outside the specified domain *)

(** With a bit width of 0 or less nothing is cut from the right: the
    text is the prefix followed by the binary digits of the value less
    their first [- bit_width] characters, all of them when the width is 0;
    and the warning is logged for every value as soon as warnings are
    enabled. *)
Theorem nonpositive_width
    (c : label_class) (value : Z) (prefix : pystr) (bit_width : Z)
    (tw : bool) (lg : list pystr) :
  bit_width <= 0 -> 0 <= value ->
  let w := snd (__init__ c value prefix bit_width tw lg) in
  text (self w)
  = prefix ++ skipn (Z.to_nat (- bit_width)) (binary_digit_string value) /\
  log w = lg ++ (if tw then [warning_of c] else []).
Proof.
  intros Hw Hv. cbv zeta.
  destruct (binary_digit_string_head value Hv) as (c0 & rest & Hd & _).
  assert (Hlen : 1 <= len (binary_digit_string value))
    by (rewrite Hd; unfold len; cbn [List.length]; lia).
  split.
  - rewrite init_self.
    change (text (redrawn value (mkLabel c value prefix bit_width tw [])))
      with (rendering (mkLabel c value prefix bit_width tw [])).
    unfold rendering. cbn [_prefix _value _bit_width]. f_equal.
    rewrite bin_nonneg by exact Hv. unfold zfill.
    replace (len (binary_digit_string value) >=? bit_width) with true
      by (symmetry; apply Z.geb_le; lia).
    unfold slice_from.
    replace (- bit_width <? 0) with false by (symmetry; apply Z.ltb_ge; lia).
    destruct (Z.le_gt_cases (- bit_width) (len (binary_digit_string value)))
      as [Hle | Hgt].
    + rewrite Z.min_l by exact Hle. reflexivity.
    + rewrite Z.min_r by lia. unfold len in *.
      rewrite Nat2Z.id, skipn_all. symmetry. apply skipn_all2. lia.
  - rewrite init_log. unfold warnings_for, too_wide.
    cbn [_truncation_warning _value _bit_width cls].
    rewrite bin_nonneg by exact Hv.
    replace (len (binary_digit_string value) >? bit_width) with true
      by (symmetry; apply Z.gtb_lt; lia).
    rewrite andb_true_r. reflexivity.
Qed.

Lemma nonpositive_width_witness :
  text (self (snd (__init__ BinaryLabel_cls 5 [] 0 true []))) = lit "101".
Proof.
  apply (nonpositive_width BinaryLabel_cls 5 [] 0 true []); lia.
Defined.

(** A negative value is drawn from the string [bin] gives without its
    first two characters, which still begins with the letter [b]: the
    text is the prefix followed by the rightmost [bit_width] characters of
    that letter and the digits of the absolute value, padded with zeros on
    the left. *)
Theorem negative_value_text (v : Z) (w : world) :
  1 <= _bit_width (self w) -> v < 0 ->
  text (self (snd (set v w)))
  = _prefix (self w) ++
    rightmost (Z.to_nat (_bit_width (self w)))
      (left_pad (Z.to_nat (_bit_width (self w)))
         ("b"%char :: binary_digit_string (- v))).
Proof.
  intros Hw Hv.
  change (set v w) with (invoke (Call_set v) w).
  rewrite invoke_self. cbn [stored_value].
  change (text (redrawn ?x ?s)) with (rendering (set_value x s)).
  unfold rendering. cbn [set_value _prefix _value _bit_width]. f_equal.
  destruct v as [| p | p]; try lia.
  rewrite bin_neg. change (- Z.neg p) with (Z.pos p).
  rewrite zfill_unsigned by reflexivity.
  apply slice_from_rightmost. exact Hw.
Qed.

Lemma negative_value_text_witness :
  text (self (snd (set (-5) (snd (__init__ BinaryLabel_cls 0 [] 8 true [])))))
  = lit "0000b101".
Proof.
  apply (negative_value_text (-5) (snd (__init__ BinaryLabel_cls 0 [] 8 true []))).
  - simpl. lia.
  - lia.
Defined.

(** ** A label used within its width *)

Lemma high_bits_clear (v w i : Z) :
  0 <= v < 2 ^ w -> w <= i -> Z.testbit v i = false.
Proof.
  intros Hv Hi. destruct (Z.le_gt_cases 0 w) as [Hw | Hw].
  - rewrite <- (Z.mod_small v (2 ^ w)) by exact Hv.
    apply Z.mod_pow2_bits_high. lia.
  - rewrite Z.pow_neg_r in Hv by exact Hw. lia.
Qed.

Lemma bit_result_in_range (o : bit_operation) (v p w : Z) :
  0 <= v < 2 ^ w -> 0 <= p < w -> 0 <= bit_result o v p < 2 ^ w.
Proof.
  intros Hv Hp.
  assert (Hmod : bit_result o v p = bit_result o v p mod 2 ^ w).
  { apply Z.bits_inj'. intros i Hi.
    rewrite Z.testbit_mod_pow2 by lia.
    destruct (Z.ltb_spec i w) as [Hlt | Hge]; [reflexivity |].
    rewrite bit_result_spec by lia.
    replace (i =? p) with false by (symmetry; apply Z.eqb_neq; lia).
    apply high_bits_clear with (w := w); assumption. }
  rewrite Hmod. apply Z.mod_pos_bound. apply Z.pow_pos_nonneg; lia.
Qed.

Lemma stored_value_within (w : Z) (c : call) (s : BinaryLabel) (v' : Z) :
  1 <= w -> within_width w c -> _bit_width s = w -> 0 <= _value s < 2 ^ w ->
  stored_value c s = Some v' -> 0 <= v' < 2 ^ w.
Proof.
  intros Hw Hc Hb Hv.
  assert (Hx : forall o p, 0 <= p < w ->
            Some (bit_result o (_value s) p) = Some v' -> 0 <= v' < 2 ^ w).
  { intros o p Hp [= <-]. apply bit_result_in_range; assumption. }
  destruct c; cbn [stored_value within_width] in *; unfold bit_write;
    try discriminate;
    try (intros [= <-]; exact Hc);
    rewrite ?Hb;
    match goal with
    | |- (if ?p <? 0 then _ else _) = _ -> _ =>
        replace (p <? 0) with false by (symmetry; apply Z.ltb_ge; lia)
    end.
  - apply (Hx Toggle_op); lia.
  - apply (Hx Set_op); lia.
  - apply (Hx Clear_op); lia.
  - apply (Hx Toggle_op); lia.
  - apply (Hx Set_op); lia.
  - apply (Hx Clear_op); lia.
  - apply (Hx Toggle_op); lia.
  - apply (Hx Set_op); lia.
  - apply (Hx Clear_op); lia.
Qed.

Lemma invoke_within (w : Z) (c : call) (x : world) :
  1 <= w -> within_width w c ->
  _bit_width (self x) = w -> 0 <= _value (self x) < 2 ^ w ->
  raises (fst (invoke c x)) = false /\
  log (snd (invoke c x)) = log x /\
  _bit_width (self (snd (invoke c x))) = w /\
  0 <= _value (self (snd (invoke c x))) < 2 ^ w.
Proof.
  intros Hw Hc Hb Hv. split; [| split; [| split]].
  - destruct x as [s l]. cbn [self] in *.
    destruct c; cbn [within_width] in *; step_methods;
      repeat match goal with
             | |- context [?p <? 0] =>
                 replace (p <? 0) with false by (symmetry; apply Z.ltb_ge; lia)
             end;
      try reflexivity.
    destruct (_ && _); reflexivity.
  - rewrite invoke_log.
    destruct c; cbn [emitted]; try apply app_nil_r.
    rewrite warnings_for_warns.
    cbn [set_value _truncation_warning _value _bit_width within_width] in *.
    rewrite Hb, warns_threshold by lia.
    replace (2 ^ w <=? value) with false by (symmetry; apply Z.leb_gt; lia).
    rewrite andb_false_r. apply app_nil_r.
  - destruct (invoke_frame c x) as (_ & _ & -> & _). exact Hb.
  - rewrite invoke_self.
    destruct (stored_value c (self x)) as [v' |] eqn:Hst; [| exact Hv].
    change (_value (redrawn v' (self x))) with v'.
    apply (stored_value_within w c (self x)); assumption.
Qed.

Lemma run_within (w : Z) (cs : list call) :
  1 <= w -> Forall (within_width w) cs ->
  forall x,
  _bit_width (self x) = w -> 0 <= _value (self x) < 2 ^ w ->
  Forall (fun r => raises r = false) (fst (run cs x)) /\
  log (snd (run cs x)) = log x /\
  0 <= _value (self (snd (run cs x))) < 2 ^ w.
Proof.
  intros Hw Hcs. induction Hcs as [| c cs Hc _ IH]; intros x Hb Hv.
  - cbn [run fst snd]. split; [constructor | split; [reflexivity | exact Hv]].
  - rewrite run_cons. cbn [fst snd].
    destruct (invoke_within w c x Hw Hc Hb Hv) as (Hr & Hl & Hb' & Hv').
    destruct (IH _ Hb' Hv') as (Hrs & Hls & Hvs).
    split; [constructor; assumption | split; [congruence | exact Hvs]].
Qed.

Lemma within_sets_nonneg (w : Z) (cs : list call) :
  Forall (within_width w) cs -> Forall sets_nonneg cs.
Proof.
  apply Forall_impl. intros c; destruct c; cbn; tauto.
Qed.

(** A label built with a bit width of at least 1 and a value that fits
    in it, and then only given values that fit and positions below the
    width, never raises, never logs a warning, keeps a value that fits,
    and shows after its prefix a text that reads back as exactly that
    value. *)
Theorem label_used_within_width
    (c : label_class) (value : Z) (prefix : pystr) (bit_width : Z)
    (tw : bool) (lg : list pystr) (cs : list call) :
  1 <= bit_width -> 0 <= value < 2 ^ bit_width ->
  Forall (within_width bit_width) cs ->
  let r := run cs (snd (__init__ c value prefix bit_width tw lg)) in
  Forall (fun x => raises x = false) (fst r) /\
  log (snd r) = lg /\
  0 <= _value (self (snd r)) < 2 ^ bit_width /\
  binary_value (slice_from (len prefix) (text (self (snd r))))
  = _value (self (snd r)).
Proof.
  intros Hw Hv Hcs. cbv zeta.
  destruct (run_within bit_width cs Hw Hcs
              (snd (__init__ c value prefix bit_width tw lg)))
    as (Hr & Hl & Hv').
  - rewrite init_self. reflexivity.
  - rewrite init_self. exact Hv.
  - split; [exact Hr | split; [| split; [exact Hv' |]]].
    + rewrite Hl, init_log, warnings_for_warns.
      cbn [_truncation_warning _value _bit_width cls].
      rewrite warns_threshold by lia.
      replace (2 ^ bit_width <=? value) with false
        by (symmetry; apply Z.leb_gt; lia).
      rewrite andb_false_r. apply app_nil_r.
    + destruct (built_state c value prefix bit_width tw lg cs Hw)
        as (_ & _ & _ & ->);
        [lia | eapply within_sets_nonneg; eassumption |].
      unfold spec_rendering.
      rewrite slice_from_prefix, binary_value_body, binary_value_digits,
        Z2Nat.id by lia.
      apply Z.mod_small. exact Hv'.
Qed.

Lemma label_used_within_width_witness :
  binary_value (slice_from (len (lit "0b"))
    (text (self (snd (run [Call_set 129; Call_clear_msb; Call_toggle_bit 3]
                        (snd (__init__ BinaryLabel_cls 255 (lit "0b") 8 true [])))))))
  = _value (self (snd (run [Call_set 129; Call_clear_msb; Call_toggle_bit 3]
                        (snd (__init__ BinaryLabel_cls 255 (lit "0b") 8 true []))))).
Proof.
  apply (label_used_within_width BinaryLabel_cls 255 (lit "0b") 8 true []
           [Call_set 129; Call_clear_msb; Call_toggle_bit 3]).
  - lia.
  - lia.
  - repeat constructor; cbn; lia.
Defined.

(** ** Callbacks of either shape *)

(** A callback that takes exactly one positional parameter has its body
    run once, on what [self.get()] gives: the adapter's first attempt
    fails before the body is entered.  The adapter yields [None] when the
    body returns, whatever it returns, and raises what the body raises. *)
Theorem one_parameter_callback {U}
    (self_get : env U -> pyval) (callback : callable U)
    (args : list pyval) (e : env U) :
  accepts callback 0 = false -> accepts callback 1 = true ->
  let v := self_get (mkEnv (var_value e) (calls e ++ [[]]) (user e)) in
  let run_body := body callback [v] (var_value e) (user e) in
  internal_callback_on self_get callback args e
  = (returns_None (fst run_body),
     mkEnv (var_value e) (calls e ++ [[]; [v]]) (snd run_body)).
Proof.
  intros H0 H1. cbv zeta.
  unfold internal_callback_on, call_function.
  cbn [List.length]. rewrite H0. cbn [arity_mismatch var_value calls user].
  cbn [List.length]. rewrite H1.
  destruct (body callback _ (var_value e) (user e)) as [[a | x] u];
    cbn [fst snd returns_None]; rewrite <- app_assoc; reflexivity.
Qed.

Lemma one_parameter_callback_witness :
  internal_callback_on SmartWidget_get record_value [] (mkEnv (PyInt 3) [] [])
  = (Ok PyNone, mkEnv (PyInt 3) [[]; [PyInt 3]] [PyInt 3]).
Proof.
  apply (one_parameter_callback SmartWidget_get record_value []
           (mkEnv (PyInt 3) [] []));
    reflexivity.
Defined.

(** A callback that takes no parameter and whose body does not raise
    [TypeError] has its body run once, without arguments, on a widget of
    any of the classes; the adapter yields [None] when the body returns,
    whatever it returns, and raises what the body raises. *)
Theorem zero_parameter_callback {U}
    (self_get : env U -> pyval) (callback : callable U)
    (args : list pyval) (e : env U) :
  accepts callback 0 = true ->
  is_TypeError (fst (body callback [] (var_value e) (user e))) = false ->
  let run_body := body callback [] (var_value e) (user e) in
  internal_callback_on self_get callback args e
  = (returns_None (fst run_body),
     mkEnv (var_value e) (calls e ++ [[]]) (snd run_body)).
Proof.
  intros H0 Hb. cbv zeta.
  unfold internal_callback_on, call_function. cbn [List.length]. rewrite H0.
  destruct (body callback [] (var_value e) (user e)) as [[a | x] u];
    cbn [fst snd returns_None] in *; [reflexivity |].
  destruct x; cbn [is_TypeError] in Hb; try discriminate; reflexivity.
Qed.

Lemma zero_parameter_callback_witness :
  internal_callback_on SmartWidget_get record_current [] (mkEnv (PyInt 3) [] [])
  = (Ok PyNone, mkEnv (PyInt 3) [[]] [PyInt 3]).
Proof.
  apply (zero_parameter_callback SmartWidget_get record_current []
           (mkEnv (PyInt 3) [] []));
    reflexivity.
Defined.

(** When a callback without parameters raises [TypeError] from its
    body, the adapter's second call cannot bind the value: what reaches the
    caller is the arity error of that second call, not the error the body
    raised, and the effects of the body's one run stay. *)
Theorem body_TypeError_is_masked {U}
    (callback : callable U) (args : list pyval) (e : env U) :
  accepts callback 0 = true -> accepts callback 1 = false ->
  is_TypeError (fst (body callback [] (var_value e) (user e))) = true ->
  internal_callback callback args e
  = (Raise arity_mismatch,
     mkEnv (var_value e) (calls e ++ [[]; [var_value e]])
       (snd (body callback [] (var_value e) (user e)))).
Proof.
  intros H0 H1 Hb.
  unfold internal_callback, internal_callback_on, call_function, SmartWidget_get.
  cbn [List.length]. rewrite H0.
  destruct (body callback [] (var_value e) (user e)) as [[a | x] u];
    cbn [fst snd is_TypeError] in *; [discriminate |].
  destruct x; try discriminate.
  cbn [List.length var_value calls user].
  rewrite H1, <- app_assoc. reflexivity.
Qed.

Lemma body_TypeError_is_masked_witness :
  internal_callback failing_inside [] (mkEnv (PyInt 3) [] tt)
  = (Raise arity_mismatch, mkEnv (PyInt 3) [[]; [PyInt 3]] tt).
Proof.
  apply (body_TypeError_is_masked failing_inside [] (mkEnv (PyInt 3) [] tt));
    reflexivity.
Defined.

(** ** Constructors at the edge *)

(** Without options and without a usable initial value, none given or
    an empty one, the menu cannot be built: [options[0]] raises
    [IndexError]. *)
Theorem option_menu_without_options {U}
    (initial_value : option pystr) (callback : option (callable U)) :
  truthy initial_value = false ->
  SmartOptionMenu_init [] initial_value callback
  = Raise (IndexError (lit "list index out of range")).
Proof.
  destruct initial_value as [[| c s] |]; intros H;
    [reflexivity | discriminate | reflexivity].
Qed.

Lemma option_menu_without_options_witness :
  SmartOptionMenu_init (U := unit) [] (Some []) None
  = Raise (IndexError (lit "list index out of range")).
Proof.
  apply (option_menu_without_options (U := unit) (Some []) None). reflexivity.
Defined.
